(** * lrcmd: local / remote command execution with retry

    A shallow embedding of the execution core of the [lrcmd] package
    ([lrcmd/core.py], [lrcmd/local.py], [lrcmd/remote.py],
    [lrcmd/exceptions.py] and the dispatcher [run] of [lrcmd/__init__.py]),
    together with the properties of the retry engine, the output checker and
    the two executors.

    Python objects are modelled by records, attributes that may be absent by
    [option], raised exceptions by the [Exc] outcome of a small state-and-error
    monad, and the outside world (child processes, the ssh channel, the clock,
    the diagnostic stream and the error logger) by an oracle plus a trace of
    events. *)

From Stdlib Require Import ZArith List String Ascii Bool Lia DecimalString.
Import ListNotations.

Set Warnings "-register-all".
Local Open Scope string_scope.
Local Open Scope Z_scope.

(** ** Python values and their textual forms *)

(** The dynamically typed values that flow through the core: the [command]
    argument, [self.command], and whatever a post-processor returns. *)
Inductive PyVal : Type :=
| PyNone
| PyBool (b : bool)
| PyInt (z : Z)
| PyStr (s : string)
| PyList (l : list PyVal).

(** [str(z)] for a Python [int]. *)
Definition str_of_int (z : Z) : string := NilZero.string_of_int (Z.to_int z).

Definition hex_digit (n : nat) : ascii :=
  nth n (list_ascii_of_string "0123456789abcdef") "0"%char.

(** Escape of one character inside a [repr] delimited by [q]. *)
Definition repr_char (q c : ascii) : string :=
  let n := nat_of_ascii c in
  if Ascii.eqb c "\"%char then "\\"
  else if Ascii.eqb c q then String "\"%char (String c EmptyString)
  else if Nat.eqb n 10 then "\n"
  else if Nat.eqb n 13 then "\r"
  else if Nat.eqb n 9 then "\t"
  else if (Nat.ltb n 32 || Nat.eqb n 127)%bool
       then String "\"%char (String "x"%char
              (String (hex_digit (Nat.div n 16))
                 (String (hex_digit (Nat.modulo n 16)) EmptyString)))
  else String c EmptyString.

Fixpoint has_char (c : ascii) (s : string) : bool :=
  match s with
  | EmptyString => false
  | String d r => (Ascii.eqb c d || has_char c r)%bool
  end.

Fixpoint repr_body (q : ascii) (s : string) : string :=
  match s with
  | EmptyString => EmptyString
  | String c r => repr_char q c ++ repr_body q r
  end.

(** [repr(s)] for a Python [str]: single quotes unless the text holds a single
    quote and no double quote. *)
Definition repr_str (s : string) : string :=
  let q := if (has_char "'"%char s && negb (has_char "034"%char s))%bool
           then "034"%char else "'"%char in
  String q (repr_body q s ++ String q EmptyString).

Definition repr_list_body (repr : PyVal -> string) : list PyVal -> string :=
  fix go (l : list PyVal) : string :=
    match l with
    | [] => EmptyString
    | [x] => repr x
    | x :: r => repr x ++ ", " ++ go r
    end.

Fixpoint py_repr (v : PyVal) : string :=
  match v with
  | PyNone => "None"
  | PyBool true => "True"
  | PyBool false => "False"
  | PyInt z => str_of_int z
  | PyStr s => repr_str s
  | PyList l => "[" ++ repr_list_body py_repr l ++ "]"
  end.

(** [str(v)], as an f-string renders [{v}]. *)
Definition py_str (v : PyVal) : string :=
  match v with
  | PyStr s => s
  | _ => py_repr v
  end.

(** [{timeout}] in an f-string: a number or [None]. *)
Definition str_of_timeout (t : option Z) : string :=
  match t with
  | Some z => str_of_int z
  | None => "None"
  end.

(** A string made of one double quote. *)
Definition dq : string := String "034"%char EmptyString.

(** ** Results

    [Result.t] stands for the object held in [self.result]: a
    [types.SimpleNamespace] filled attribute by attribute, or the
    [subprocess.CompletedProcess] of a local run.  An attribute that has not
    been set is [None] here; reading it raises [AttributeError]. *)
Module Result.

Record t : Type := mk {
  stdout : option string;
  stderr : option string;
  returncode : option Z;
  processed : option PyVal;
  attempts : option Z;
  repeat_messages : option string
}.

(** [SimpleNamespace()]. *)
Definition empty : t := mk None None None None None None.

(** The three attributes every finished execution sets. *)
Definition completed (out err : string) (rc : Z) : t :=
  mk (Some out) (Some err) (Some rc) None None None.

Definition set_stdout (s : string) (r : t) : t :=
  mk (Some s) (stderr r) (returncode r) (processed r) (attempts r)
     (repeat_messages r).

Definition set_processed (v : PyVal) (r : t) : t :=
  mk (stdout r) (stderr r) (returncode r) (Some v) (attempts r)
     (repeat_messages r).

Definition set_repeat_messages (s : string) (r : t) : t :=
  mk (stdout r) (stderr r) (returncode r) (processed r) (attempts r) (Some s).

Definition set_attempts (n : Z) (r : t) : t :=
  mk (stdout r) (stderr r) (returncode r) (processed r) (Some n)
     (repeat_messages r).

End Result.

(** ** Exceptions ([lrcmd/exceptions.py] and the built-in ones) *)

Inductive ExnClass : Type :=
| NonZeroReturnCode
| Stderr
| CommandTimedOut
| RepeatedExecutionFailed
| NotConnected
| TypeError
| ValueError
| AttributeError
| OtherException (name : string)
| KeyboardInterrupt
| SystemExit.

(** [type(e).__name__]. *)
Definition class_name (c : ExnClass) : string :=
  match c with
  | NonZeroReturnCode => "NonZeroReturnCode"
  | Stderr => "Stderr"
  | CommandTimedOut => "CommandTimedOut"
  | RepeatedExecutionFailed => "RepeatedExecutionFailed"
  | NotConnected => "NotConnected"
  | TypeError => "TypeError"
  | ValueError => "ValueError"
  | AttributeError => "AttributeError"
  | OtherException name => name
  | KeyboardInterrupt => "KeyboardInterrupt"
  | SystemExit => "SystemExit"
  end.

(** [isinstance(e, Exception)]: everything but the two classes that derive
    from [BaseException] directly. *)
Definition is_Exception (c : ExnClass) : bool :=
  match c with
  | KeyboardInterrupt | SystemExit => false
  | _ => true
  end.

(** [isinstance(e, FailedCommand)]. *)
Definition is_FailedCommand (c : ExnClass) : bool :=
  match c with
  | NonZeroReturnCode | Stderr | CommandTimedOut | RepeatedExecutionFailed =>
      true
  | _ => false
  end.

(** An exception object: its class, [str(e)], and the [result] attribute that
    [FailedCommand.__init__] sets ([None] when no result was passed, and for
    the classes that have no such attribute). *)
Record Exn : Type := mkExn {
  exn_class : ExnClass;
  exn_str : string;
  exn_result : option Result.t
}.

(** ** Commands, sessions and the outside world *)

(** The [Connection] collaborator: only its label is read by the core; its
    [paramiko_client] is the world's oracle. *)
Record Connection : Type := mkConnection { label : string }.

Record Logger : Type := mkLogger { logger_name : string }.

Inductive CmdClass : Type := LocalCommand | RemoteCommand.

(** [type(self).__name__]. *)
Definition cmd_class_name (c : CmdClass) : string :=
  match c with
  | LocalCommand => "LocalCommand"
  | RemoteCommand => "RemoteCommand"
  end.

Module Cmd.

(** The attributes of a command object.  [result] is absent until [execute]
    sets it; [repeat_messages] is set by [execute_repeat] before it is read. *)
Record t : Type := mk {
  cls : CmdClass;
  command : PyVal;
  connection : option Connection;
  working_directory : option string;
  result : option Result.t;
  repeat_messages : string
}.

Definition set_command (c : PyVal) (s : t) : t :=
  mk (cls s) c (connection s) (working_directory s) (result s)
     (repeat_messages s).

Definition set_connection (c : option Connection) (s : t) : t :=
  mk (cls s) (command s) c (working_directory s) (result s)
     (repeat_messages s).

Definition set_result (r : Result.t) (s : t) : t :=
  mk (cls s) (command s) (connection s) (working_directory s) (Some r)
     (repeat_messages s).

Definition set_repeat_messages (m : string) (s : t) : t :=
  mk (cls s) (command s) (connection s) (working_directory s) (result s) m.

End Cmd.

(** What the core asks of the world: [subprocess.run] or
    [paramiko_client.exec_command]. *)
Inductive Request : Type :=
| Spawn (args : PyVal) (cwd : option string) (timeout : option Z)
| ExecCommand (conn : Connection) (cmd : PyVal) (timeout : option Z).

(** What the world answers.  [partial] is the standard output already read
    from the channel when a remote execution was cut short. *)
Inductive RawOutcome : Type :=
| Completed (out err : string) (rc : Z)
| TimedOut (partial : option string)
| Raised (e : Exn) (partial : option string).

Inductive Event : Type :=
| EvRun (r : Request)
| EvSleep (seconds : Z)
| EvEcho (msg : string)
| EvLogError (log : Logger) (msg : string).

Module World.

(** [oracle i r] is the answer to the [i]-th request (counting from 0) when
    that request is [r]; [trace] lists the events so far, oldest first. *)
Record t : Type := mk {
  oracle : nat -> Request -> RawOutcome;
  calls : nat;
  trace : list Event
}.

Definition emit (ev : Event) (w : t) : t :=
  mk (oracle w) (calls w) (trace w ++ [ev]).

Definition init (o : nat -> Request -> RawOutcome) : t := mk o 0%nat [].

End World.

(** The durations passed to [sleep], oldest first. *)
Fixpoint sleeps (tr : list Event) : list Z :=
  match tr with
  | [] => []
  | EvSleep d :: r => d :: sleeps r
  | _ :: r => sleeps r
  end.

(** The requests made, oldest first. *)
Fixpoint requests (tr : list Event) : list Request :=
  match tr with
  | [] => []
  | EvRun q :: r => q :: requests r
  | _ :: r => requests r
  end.

Definition total (l : list Z) : Z := fold_right Z.add 0 l.

(** ** The state-and-error monad of a method call

    A method runs against the command object [self] and the world, and either
    returns a value or raises. *)
Record State : Type := mkState { self : Cmd.t; world : World.t }.

Inductive Res (A : Type) : Type :=
| Val (a : A)
| Exc (e : Exn).
Arguments Val {A} a.
Arguments Exc {A} e.

Definition M (A : Type) : Type := State -> Res A * State.

Definition ret {A} (a : A) : M A := fun st => (Val a, st).

Definition raise {A} (e : Exn) : M A := fun st => (Exc e, st).

Definition bind {A B} (m : M A) (k : A -> M B) : M B :=
  fun st =>
    match m st with
    | (Val a, st') => k a st'
    | (Exc e, st') => (Exc e, st')
    end.

Declare Scope monad_scope.
Delimit Scope monad_scope with monad.
Notation "x <- m ;; k" := (bind m (fun x => k))
  (at level 61, m at next level, right associativity) : monad_scope.
Notation "m ;; k" := (bind m (fun _ => k))
  (at level 61, right associativity) : monad_scope.
Local Open Scope monad_scope.

Definition get_self : M Cmd.t := fun st => (Val (self st), st).

Definition modify_self (f : Cmd.t -> Cmd.t) : M unit :=
  fun st => (Val tt, mkState (f (self st)) (world st)).

Definition emit (ev : Event) : M unit :=
  fun st => (Val tt, mkState (self st) (World.emit ev (world st))).

(** The outcome of a callable that may raise. *)
Definition lift {A} (r : Res A) : M A := fun st => (r, st).

Definition nl : string := String (ascii_of_nat 10) EmptyString.

Definition attribute_error (obj name : string) : Exn :=
  mkExn AttributeError
        ("'" ++ obj ++ "' object has no attribute '" ++ name ++ "'") None.

(** [self.result]. *)
Definition get_result : M Result.t :=
  s <- get_self ;;
  match Cmd.result s with
  | Some r => ret r
  | None => raise (attribute_error (cmd_class_name (Cmd.cls s)) "result")
  end.

(** [self.result.<name>], where [a] is the attribute's slot. *)
Definition attr {A} (name : string) (a : option A) : M A :=
  match a with
  | Some x => ret x
  | None => raise (attribute_error "types.SimpleNamespace" name)
  end.

(** [FailedCommand.__init__]: stores [result] and, when a logger is given,
    writes [str(self)] to it. *)
Definition FailedCommand (c : ExnClass) (msg : string)
    (result : option Result.t) (error_log : option Logger) : M Exn :=
  let e := mkExn c msg result in
  match error_log with
  | Some lg => emit (EvLogError lg msg) ;; ret e
  | None => ret e
  end.

(** ** [CommandBase.process_output] *)

Definition nonzero_msg (s : Cmd.t) (rc : Z) (err : string) : string :=
  nl ++ "  " ++ cmd_class_name (Cmd.cls s) ++ " '" ++ py_str (Cmd.command s)
     ++ "'" ++ nl ++ "  yields nonzero exit code: " ++ str_of_int rc
     ++ nl ++ "  stderr: " ++ err.

Definition stderr_msg (s : Cmd.t) (err : string) : string :=
  nl ++ "  " ++ cmd_class_name (Cmd.cls s) ++ " '" ++ py_str (Cmd.command s)
     ++ "'" ++ nl ++ "  yields output on stderr: " ++ nl ++ err.

(** A post-processor is any callable on the captured text; it may raise. *)
Definition PostProcessor : Type := string -> Res PyVal.

Definition nonempty (s : string) : bool :=
  match s with
  | EmptyString => false
  | String _ _ => true
  end.

Definition process_output (post_processor : option PostProcessor)
    (check stderr_is_error : bool) (error_log : option Logger) : M Result.t :=
  (if check then
     r <- get_result ;;
     rc <- attr "returncode" (Result.returncode r) ;;
     if negb (rc =? 0) then
       s <- get_self ;;
       err <- attr "stderr" (Result.stderr r) ;;
       e <- FailedCommand NonZeroReturnCode (nonzero_msg s rc err) (Some r)
                          error_log ;;
       raise e
     else ret tt
   else ret tt) ;;
  (if stderr_is_error then
     r <- get_result ;;
     err <- attr "stderr" (Result.stderr r) ;;
     if nonempty err then
       s <- get_self ;;
       e <- FailedCommand Stderr (stderr_msg s err) (Some r) error_log ;;
       raise e
     else ret tt
   else ret tt) ;;
  match post_processor with
  | Some f =>
      r <- get_result ;;
      out <- attr "stdout" (Result.stdout r) ;;
      v <- lift (f out) ;;
      modify_self (Cmd.set_result (Result.set_processed v r))
  | None => ret tt
  end ;;
  get_result.

(** ** The two executors *)

(** One request to the world: the oracle answers, the request is recorded. *)
Definition perform (q : Request) : M RawOutcome :=
  fun st =>
    let w := world st in
    (Val (World.oracle w (World.calls w) q),
     mkState (self st)
       (World.mk (World.oracle w) (S (World.calls w))
                 (World.trace w ++ [EvRun q]))).

Definition local_timeout_msg (s : Cmd.t) (timeout : option Z) : string :=
  "Local command '" ++ py_str (Cmd.command s) ++ "' timed out after "
    ++ str_of_timeout timeout ++ "s.".

(** [LocalCommand.execute]. *)
Definition LocalCommand_execute (post_processor : option PostProcessor)
    (check stderr_is_error : bool) (timeout : option Z)
    (error_log : option Logger) : M Result.t :=
  modify_self (Cmd.set_result Result.empty) ;;
  s <- get_self ;;
  raw <- perform (Spawn (Cmd.command s) (Cmd.working_directory s) timeout) ;;
  match raw with
  | Completed out err rc =>
      modify_self (Cmd.set_result (Result.completed out err rc))
  | TimedOut _ =>
      r <- get_result ;;
      e <- FailedCommand CommandTimedOut (local_timeout_msg s timeout)
                         (Some r) error_log ;;
      raise e
  | Raised e _ => raise e
  end ;;
  process_output post_processor check stderr_is_error error_log ;;
  get_result.

Definition remote_timeout_msg (s : Cmd.t) (c : Connection)
    (timeout : option Z) : string :=
  "Remote command '" ++ py_str (Cmd.command s) ++ "' timed out after "
    ++ str_of_timeout timeout ++ "s." ++ nl ++ "  on " ++ label c.

(** What was read from the channel before it was cut short. *)
Definition keep_partial (partial : option string) : M unit :=
  match partial with
  | Some out => modify_self (Cmd.set_result (Result.set_stdout out Result.empty))
  | None => ret tt
  end.

(** [RemoteCommand.execute]. *)
Definition RemoteCommand_execute (post_processor : option PostProcessor)
    (check stderr_is_error : bool) (timeout : option Z)
    (error_log : option Logger) : M Result.t :=
  modify_self (Cmd.set_result Result.empty) ;;
  s <- get_self ;;
  match Cmd.connection s with
  | None => raise (attribute_error "NoneType" "paramiko_client")
  | Some c =>
      raw <- perform (ExecCommand c (Cmd.command s) timeout) ;;
      match raw with
      | Completed out err rc =>
          modify_self (Cmd.set_result (Result.completed out err rc))
      | TimedOut partial =>
          keep_partial partial ;;
          e <- FailedCommand CommandTimedOut (remote_timeout_msg s c timeout)
                             None error_log ;;
          raise e
      | Raised e partial => keep_partial partial ;; raise e
      end
  end ;;
  process_output post_processor check stderr_is_error error_log.

(** [self.execute(...)]: dispatch on the class of [self]. *)
Definition execute (post_processor : option PostProcessor)
    (check stderr_is_error : bool) (timeout : option Z)
    (error_log : option Logger) : M Result.t :=
  s <- get_self ;;
  match Cmd.cls s with
  | LocalCommand =>
      LocalCommand_execute post_processor check stderr_is_error timeout
                           error_log
  | RemoteCommand =>
      RemoteCommand_execute post_processor check stderr_is_error timeout
                            error_log
  end.

(** ** [shlex.split] and [shlex.quote]

    The two standard-library functions the constructors call, as the POSIX-mode
    lexer that [shlex.split(s)] runs ([whitespace_split] on, no comment
    characters, no punctuation characters) and as [shlex.quote] is written. *)
Module Shlex.

Inductive LexState : Type :=
| InSpace                      (* state ' ': between tokens *)
| InWord                       (* state 'a' *)
| InQuote (q : ascii)          (* state is the opening quote *)
| InEscape.                    (* state is the escape character *)

Record Lexer : Type := mk {
  state : LexState;
  token : string;
  quoted : bool;
  escapedstate : LexState;
  tokens : list string
}.

Definition is_whitespace (c : ascii) : bool :=
  (Ascii.eqb c " "%char || Ascii.eqb c "009"%char
   || Ascii.eqb c "013"%char || Ascii.eqb c "010"%char)%bool.

Definition is_escape (c : ascii) : bool := Ascii.eqb c "\"%char.

Definition is_quote (c : ascii) : bool :=
  (Ascii.eqb c "'"%char || Ascii.eqb c "034"%char)%bool.

(** [escapedquotes]: the quotes inside which the escape character works. *)
Definition is_escapedquote (c : ascii) : bool := Ascii.eqb c "034"%char.

Definition snoc (s : string) (c : ascii) : string :=
  s ++ String c EmptyString.

(** [read_token] returns [self.token]; the next call starts afresh. *)
Definition emit_token (st : LexState) (l : Lexer) : Lexer :=
  mk st EmptyString false InSpace (tokens l ++ [token l])%list.

(** The whitespace branch: the token ends if there is one. *)
Definition end_word (l : Lexer) : Lexer :=
  if (nonempty (token l) || quoted l)%bool then emit_token InSpace l
  else mk InSpace (token l) (quoted l) (escapedstate l) (tokens l).

(** One character read by [read_token]. *)
Definition step (l : Lexer) (c : ascii) : Lexer :=
  match state l with
  | InSpace =>
      if is_whitespace c then end_word l
      else if is_escape c then
        mk InEscape (token l) (quoted l) InWord (tokens l)
      else if is_quote c then
        mk (InQuote c) (token l) (quoted l) (escapedstate l) (tokens l)
      else mk InWord (String c EmptyString) (quoted l) (escapedstate l)
              (tokens l)
  | InWord =>
      if is_whitespace c then end_word l
      else if is_quote c then
        mk (InQuote c) (token l) (quoted l) (escapedstate l) (tokens l)
      else if is_escape c then
        mk InEscape (token l) (quoted l) InWord (tokens l)
      else mk InWord (snoc (token l) c) (quoted l) (escapedstate l) (tokens l)
  | InQuote q =>
      if Ascii.eqb c q then
        mk InWord (token l) true (escapedstate l) (tokens l)
      else if (is_escape c && is_escapedquote q)%bool then
        mk InEscape (token l) true (InQuote q) (tokens l)
      else mk (InQuote q) (snoc (token l) c) true (escapedstate l) (tokens l)
  | InEscape =>
      let keep_escape :=
        match escapedstate l with
        | InQuote q => (negb (is_escape c) && negb (Ascii.eqb c q))%bool
        | _ => false
        end in
      let t := if keep_escape then snoc (token l) "\"%char else token l in
      mk (escapedstate l) (snoc t c) (quoted l) (escapedstate l) (tokens l)
  end.

Fixpoint run (l : Lexer) (s : string) : Lexer :=
  match s with
  | EmptyString => l
  | String c r => run (step l c) r
  end.

Definition init : Lexer := mk InSpace EmptyString false InSpace [].

(** End of input: the last token, or [ValueError]. *)
Definition finish (l : Lexer) : Exn + list string :=
  match state l with
  | InSpace | InWord =>
      inr (if (nonempty (token l) || quoted l)%bool
           then (tokens l ++ [token l])%list else tokens l)
  | InQuote _ => inl (mkExn ValueError "No closing quotation" None)
  | InEscape => inl (mkExn ValueError "No escaped character" None)
  end.

(** [shlex.split(s)]. *)
Definition split (s : string) : Exn + list string := finish (run init s).

Definition between (lo hi : nat) (c : ascii) : bool :=
  (Nat.leb lo (nat_of_ascii c) && Nat.leb (nat_of_ascii c) hi)%bool.

(** A character outside [[^\w@%+=:,./-]] (ASCII). *)
Definition is_safe (c : ascii) : bool :=
  (between 97 122 c || between 65 90 c || between 48 57 c
   || has_char c "_@%+=:,./-")%bool.

Fixpoint all_safe (s : string) : bool :=
  match s with
  | EmptyString => true
  | String c r => (is_safe c && all_safe r)%bool
  end.

(** The replacement [shlex.quote] makes: every single quote becomes a closing
    quote, a double-quoted single quote and an opening quote. *)
Fixpoint escape_quotes (s : string) : string :=
  match s with
  | EmptyString => EmptyString
  | String c r =>
      if Ascii.eqb c "'"%char
      then "'" ++ dq ++ "'" ++ dq ++ "'" ++ escape_quotes r
      else String c (escape_quotes r)
  end.

(** [shlex.quote(s)]. *)
Definition quote (s : string) : string :=
  if negb (nonempty s) then "''"
  else if all_safe s then s
  else "'" ++ escape_quotes s ++ "'".

End Shlex.

(** ** Constructors *)

Definition of_sum {A} (r : Exn + A) : Res A :=
  match r with
  | inl e => Exc e
  | inr a => Val a
  end.

(** [CommandBase.__init__]. *)
Definition CommandBase_init (c : CmdClass) (command : PyVal)
    (connection : option Connection) (working_directory : option string)
    : Res Cmd.t :=
  match connection with
  | Some _ =>
      Exc (mkExn ValueError
             "Connection argument must not be specified on a LocalCommand object."
             None)
  | None => Val (Cmd.mk c command None working_directory None EmptyString)
  end.

(** [LocalCommand.__init__]. *)
Definition LocalCommand_init (command : PyVal)
    (working_directory : option string) : Res Cmd.t :=
  match CommandBase_init LocalCommand command None working_directory with
  | Exc e => Exc e
  | Val s =>
      match Cmd.command s with
      | PyStr text =>
          match of_sum (Shlex.split text) with
          | Val argv => Val (Cmd.set_command (PyList (map PyStr argv)) s)
          | Exc e => Exc e
          end
      | _ =>
          Exc (mkExn TypeError
                 ("Expecting " ++ dq ++ "str" ++ dq ++ " for command.") None)
      end
  end.

(** Truth value of [self.working_directory]: a non-empty string. *)
Definition truthy_dir (d : option string) : option string :=
  match d with
  | Some s => if nonempty s then Some s else None
  | None => None
  end.

(** [RemoteCommand.__init__], for a command given as text. *)
Definition RemoteCommand_init (connection : option Connection)
    (command : string) (working_directory : option string) : Res Cmd.t :=
  match CommandBase_init RemoteCommand (PyStr command) None working_directory
  with
  | Exc e => Exc e
  | Val s =>
      let s := Cmd.set_connection connection s in
      match truthy_dir (Cmd.working_directory s) with
      | Some d =>
          Val (Cmd.set_command
                 (PyStr ("cd " ++ Shlex.quote d ++ " && "
                           ++ py_str (Cmd.command s))) s)
      | None => Val s
      end
  end.

(** ** [CommandBase.execute_repeat]

    [attempts] and [wait] are integers, as the docstring types them. *)

(** [CommandBase.maximum_wait_time], for [attempts >= 1] (Python's [2**k] is
    a fraction when [k] is negative). *)
Definition maximum_wait_time (attempts wait : Z) : Z :=
  (2 ^ (attempts - 1) - 1) * wait.

(** [CommandBase.__repeat_message]. *)
Definition repeat_message (msg : string) (verbose : bool) : M unit :=
  if nonempty msg then
    let msg := msg ++ nl in
    (if verbose then emit (EvEcho msg) else ret tt) ;;
    modify_self (fun s =>
      Cmd.set_repeat_messages (Cmd.repeat_messages s ++ msg) s)
  else modify_self (Cmd.set_repeat_messages EmptyString).

(** [time.sleep]. *)
Definition sleep (seconds : Z) : M unit :=
  if seconds <? 0
  then raise (mkExn ValueError "sleep length must be non-negative" None)
  else emit (EvSleep seconds).

Definition succeeded_msg (attempts attempts_left slept_time : Z) : string :=
  "Attempt " ++ str_of_int (attempts - attempts_left + 1) ++ "/"
    ++ str_of_int attempts ++ " succeeded after " ++ str_of_int slept_time
    ++ " seconds.".

Definition failed_msg (attempts attempts_left : Z) (e : Exn)
    (sleep_time : Z) : string :=
  "Attempt " ++ str_of_int (attempts - attempts_left) ++ "/"
    ++ str_of_int attempts ++ " failed."
    ++ nl ++ "  " ++ class_name (exn_class e) ++ ": " ++ exn_str e
    ++ nl ++ "  Retrying after " ++ str_of_int sleep_time ++ " seconds.".

Definition exhausted_msg (attempts : Z) : string :=
  "Exhausted after " ++ str_of_int attempts ++ " attempts.".

Section Retry.

Variable post_processor : option PostProcessor.
Variables check stderr_is_error verbose : bool.
Variable timeout : option Z.
Variable error_log : option Logger.
Variables attempts wait : Z.

(** The body of the [try]: the attempt and what follows its return. *)
Definition on_success (attempts_left slept_time : Z) (r : Result.t)
    : M Result.t :=
  modify_self (Cmd.set_result r) ;;
  repeat_message (succeeded_msg attempts attempts_left slept_time) verbose ;;
  s <- get_self ;;
  r <- get_result ;;
  modify_self (Cmd.set_result
                 (Result.set_repeat_messages (Cmd.repeat_messages s) r)) ;;
  r <- get_result ;;
  modify_self (Cmd.set_result
                 (Result.set_attempts (attempts - attempts_left + 1) r)) ;;
  get_result.

(** The [except Exception] handler; returns whether it slept. *)
Definition on_failure (attempts_left : Z) (e : Exn) (sleep_time : Z)
    : M bool :=
  repeat_message (failed_msg attempts attempts_left e sleep_time) verbose ;;
  if negb (attempts_left =? 0) then sleep wait ;; ret true else ret false.

(** The [else] of the [while]: all attempts are used up. *)
Definition on_exhausted : M Result.t :=
  repeat_message (exhausted_msg attempts) verbose ;;
  s <- get_self ;;
  e <- FailedCommand RepeatedExecutionFailed (nl ++ Cmd.repeat_messages s)
                     None None ;;
  raise e.

(** The [while attempts_left:] loop.  [fuel] bounds the number of times the
    loop condition is tested; [None] means the bound was reached. *)
Fixpoint repeat_loop (fuel : nat) (attempts_left sleep_time slept_time : Z)
    (st : State) : option (Res Result.t * State) :=
  match fuel with
  | O => None
  | S fuel' =>
      if attempts_left =? 0 then Some (on_exhausted st)
      else
        match execute post_processor check stderr_is_error timeout error_log
                      st with
        | (Val r, st1) => Some (on_success attempts_left slept_time r st1)
        | (Exc e, st1) =>
            if is_Exception (exn_class e) then
              let attempts_left := attempts_left - 1 in
              match on_failure attempts_left e sleep_time st1 with
              | (Val true, st2) =>
                  repeat_loop fuel' attempts_left (sleep_time * 2)
                              (slept_time + sleep_time) st2
              | (Val false, st2) =>
                  repeat_loop fuel' attempts_left sleep_time slept_time st2
              | (Exc e', st2) => Some (Exc e', st2)
              end
            else Some (Exc e, st1)
        end
  end.

(** [CommandBase.execute_repeat]. *)
Definition execute_repeat (fuel : nat) (st : State)
    : option (Res Result.t * State) :=
  match (modify_self (Cmd.set_repeat_messages EmptyString) ;;
         repeat_message EmptyString verbose) st with
  | (Val _, st0) => repeat_loop fuel attempts wait 0 st0
  | (Exc e, st0) => Some (Exc e, st0)
  end.

End Retry.

(** ** The dispatcher [run] ([lrcmd/__init__.py]) *)

(** [run(command, connection, ...)] in world [w].  The command object is local
    to the call; the result or the exception, and the world, remain. *)
Definition run (fuel : nat) (command : string)
    (connection : option Connection) (working_directory : option string)
    (check stderr_is_error : bool) (timeout : option Z)
    (error_log : option Logger) (post_processor : option PostProcessor)
    (attempts wait : Z) (verbose : bool) (w : World.t)
    : option (Res Result.t * World.t) :=
  let cmd :=
    match connection with
    | None => LocalCommand_init (PyStr command) working_directory
    | Some c => RemoteCommand_init (Some c) command working_directory
    end in
  match cmd with
  | Exc e => Some (Exc e, w)
  | Val cmd =>
      let out :=
        if attempts =? 1 then
          Some (execute post_processor check stderr_is_error timeout error_log
                        (mkState cmd w))
        else
          execute_repeat post_processor check stderr_is_error verbose timeout
                         error_log attempts wait fuel (mkState cmd w) in
      match out with
      | Some (r, st) => Some (r, world st)
      | None => None
      end
  end.

(** ** Attempts seen from outside

    What one [execute] call does depends on the attributes the constructor set,
    on the options and on the world's answer, and on nothing else. *)

(** The command as its constructor left it. *)
Definition fresh (s : Cmd.t) : Cmd.t :=
  Cmd.mk (Cmd.cls s) (Cmd.command s) (Cmd.connection s)
         (Cmd.working_directory s) None EmptyString.

Section Attempt.

Variable post_processor : option PostProcessor.
Variables check stderr_is_error : bool.
Variable timeout : option Z.
Variable error_log : option Logger.

(** [execute] run by command [cmd] when the world has answered [i] requests
    and nothing has been recorded yet. *)
Definition attempt (cmd : Cmd.t) (o : nat -> Request -> RawOutcome) (i : nat)
    : Res Result.t * State :=
  execute post_processor check stderr_is_error timeout error_log
          (mkState (fresh cmd) (World.mk o i [])).

Definition outcome_at (cmd : Cmd.t) (o : nat -> Request -> RawOutcome)
    (i : nat) : Res Result.t :=
  fst (attempt cmd o i).

End Attempt.

(** The request [execute] makes, if it gets that far: none when a remote
    command holds no connection. *)
Definition request_of (cmd : Cmd.t) (timeout : option Z) : option Request :=
  match Cmd.cls cmd with
  | LocalCommand =>
      Some (Spawn (Cmd.command cmd) (Cmd.working_directory cmd) timeout)
  | RemoteCommand =>
      match Cmd.connection cmd with
      | Some c => Some (ExecCommand c (Cmd.command cmd) timeout)
      | None => None
      end
  end.

Definition opt_list {A} (a : option A) : list A :=
  match a with
  | Some x => [x]
  | None => []
  end.

(** How many requests one [execute] makes. *)
Definition step_of (cmd : Cmd.t) : nat :=
  List.length (opt_list (request_of cmd None)).

Section Log.

Variable post_processor : option PostProcessor.
Variables check stderr_is_error : bool.
Variable timeout : option Z.
Variable error_log : option Logger.
Variables attempts wait : Z.
Variable cmd : Cmd.t.
Variable o : nat -> Request -> RawOutcome.
Variable c0 : nat.

(** The exception of the attempt that follows [i] earlier ones, when that
    attempt raises. *)
Definition exn_at (i : nat) : option Exn :=
  match outcome_at post_processor check stderr_is_error timeout error_log
                   cmd o (c0 + i) with
  | Exc e => Some e
  | Val _ => None
  end.

(** That attempt raises something the [except Exception] clause catches. *)
Definition fails_at (i : nat) : bool :=
  match exn_at i with
  | Some e => is_Exception (exn_class e)
  | None => false
  end.

(** The line [execute_repeat] logs for it. *)
Definition fail_entry (i : nat) : string :=
  match exn_at i with
  | Some e =>
      failed_msg attempts (attempts - Z.of_nat i - 1) e (wait * 2 ^ Z.of_nat i)
        ++ nl
  | None => EmptyString
  end.

(** The log after [j] failed attempts. *)
Fixpoint fail_log (j : nat) : string :=
  match j with
  | O => EmptyString
  | S j' => fail_log j' ++ fail_entry j'
  end.

(** The state [st'] of a retry loop that started in [st] and has seen [j]
    attempts fail, each followed by a sleep. *)
Record after_failures (st : State) (j : nat) (st' : State) : Prop := {
  af_static : fresh (self st') = fresh cmd;
  af_oracle : World.oracle (world st') = o;
  af_calls : World.calls (world st') = (c0 + j * step_of cmd)%nat;
  af_log : Cmd.repeat_messages (self st')
           = Cmd.repeat_messages (self st) ++ fail_log j;
  af_sleeps : sleeps (World.trace (world st'))
              = (sleeps (World.trace (world st)) ++ repeat wait j)%list;
  af_requests : requests (World.trace (world st'))
                = (requests (World.trace (world st))
                   ++ List.concat (repeat (opt_list (request_of cmd timeout)) j))%list
}.

End Log.

(** The state once [__repeat_message] has added a line. *)
Definition logged (verbose : bool) (msg : string) (st : State) : State :=
  mkState
    (Cmd.set_repeat_messages (Cmd.repeat_messages (self st) ++ (msg ++ nl))
                             (self st))
    (if verbose then World.emit (EvEcho (msg ++ nl)) (world st)
     else world st).

(** The state once [sleep(wait)] has returned. *)
Definition slept (wait : Z) (st : State) : State :=
  mkState (self st) (World.emit (EvSleep wait) (world st)).

(** [execute_repeat] starts by emptying [self.repeat_messages]. *)
Definition reset (st : State) : State :=
  mkState (Cmd.set_repeat_messages EmptyString (self st)) (world st).

(** The result an attempt returned, as [execute_repeat] hands it back. *)
Definition stamped (log : string) (n : Z) (r : Result.t) : Result.t :=
  Result.set_attempts n (Result.set_repeat_messages log r).

(** The state once [FailedCommand.__init__] has written to the logger, if
    there is one. *)
Definition noted (error_log : option Logger) (msg : string) (st : State)
    : State :=
  match error_log with
  | Some lg => mkState (self st) (World.emit (EvLogError lg msg) (world st))
  | None => st
  end.

(** ** The output checker as the specification words it

    Three checks in a fixed order, the first failure winning. *)
Inductive Verdict : Type :=
| NonZeroExit
| StderrOutput
| PostProcess
| Unchanged.

Definition OutputChecker_spec (check stderr_is_error : bool) (returncode : Z)
    (stderr : string) (has_post_processor : bool) : Verdict :=
  if (check && negb (returncode =? 0))%bool then NonZeroExit
  else if (stderr_is_error && nonempty stderr)%bool then StderrOutput
  else if has_post_processor then PostProcess
  else Unchanged.

Definition is_some {A} (a : option A) : bool :=
  match a with
  | Some _ => true
  | None => false
  end.

(** [needle] occurs in [hay]. *)
Definition occurs_in (needle hay : string) : Prop :=
  exists before after, hay = before ++ needle ++ after.

(** ** Lexers up to what they have already produced *)

(** Two lexers that differ at most in an [escapedstate] nobody will read. *)
Definition same_lex (l l' : Shlex.Lexer) : Prop :=
  Shlex.state l = Shlex.state l'
  /\ Shlex.token l = Shlex.token l'
  /\ Shlex.quoted l = Shlex.quoted l'
  /\ Shlex.tokens l = Shlex.tokens l'
  /\ (Shlex.state l = Shlex.InEscape ->
      Shlex.escapedstate l = Shlex.escapedstate l').

(** A lexer that had produced [pre] before. *)
Definition prepend (pre : list string) (l : Shlex.Lexer) : Shlex.Lexer :=
  Shlex.mk (Shlex.state l) (Shlex.token l) (Shlex.quoted l)
           (Shlex.escapedstate l) (pre ++ Shlex.tokens l)%list.

(** A lexer between tokens, having produced [ts]. *)
Definition between_tokens (ts : list string) : Shlex.Lexer :=
  Shlex.mk Shlex.InSpace EmptyString false Shlex.InSpace ts.

(** A character that is plain text inside quotes opened by [q]. *)
Definition plain_in (q c : ascii) : bool :=
  (negb (Ascii.eqb c q)
   && negb (Shlex.is_escape c && Shlex.is_escapedquote q))%bool.

Fixpoint all_plain_in (q : ascii) (s : string) : bool :=
  match s with
  | EmptyString => true
  | String c r => (plain_in q c && all_plain_in q r)%bool
  end.

(** ** Post-processors ([lrcmd/postprocessors.py]) *)

(** [s.split(sep)] for a separator of one character. *)
Fixpoint split_on (sep : ascii) (s : string) : list string :=
  match s with
  | EmptyString => [EmptyString]
  | String c r =>
      if Ascii.eqb c sep then EmptyString :: split_on sep r
      else match split_on sep r with
           | h :: t => String c h :: t
           | [] => [String c EmptyString]
           end
  end.

(** [list_of_lines]. *)
Definition list_of_lines : PostProcessor :=
  fun s => Val (PyList (map PyStr (split_on (ascii_of_nat 10) s))).

(** [list_of_non_empty_lines]. *)
Definition list_of_non_empty_lines : PostProcessor :=
  fun s =>
    Val (PyList (map PyStr (filter nonempty (split_on (ascii_of_nat 10) s)))).

(** ** Sample worlds *)

(** A world in which nothing finishes in time. *)
Definition never_in_time : nat -> Request -> RawOutcome :=
  fun _ _ => TimedOut None.

(** A world in which every command exits with status 1. *)
Definition always_status_1 : nat -> Request -> RawOutcome :=
  fun _ _ => Completed EmptyString "boom" 1.

(** A world in which a command fails the first time and succeeds after. *)
Definition second_time_lucky : nat -> Request -> RawOutcome :=
  fun i _ =>
    match i with
    | O => Completed EmptyString "not yet" 1
    | S _ => Completed "done" EmptyString 0
    end.

(** A world in which every command prints a greeting. *)
Definition greeting : nat -> Request -> RawOutcome :=
  fun _ _ => Completed ("hello world" ++ nl) EmptyString 0.

(** A world in which the third command is interrupted from the keyboard. *)
Definition interrupted_third : nat -> Request -> RawOutcome :=
  fun i _ =>
    match i with
    | 2%nat => Raised (mkExn KeyboardInterrupt EmptyString None) None
    | _ => Completed EmptyString "boom" 1
    end.

(** A world whose channel is cut after the standard output was read. *)
Definition cut_short : nat -> Request -> RawOutcome :=
  fun _ _ => TimedOut (Some "half").

(** A post-processor that rejects whatever it is given. *)
Definition rejecting : PostProcessor :=
  fun _ => Exc (mkExn ValueError "unexpected output" None).

Definition login : Connection := mkConnection "user@login-node".

(** [LocalCommand("ls", working_directory=".")]. *)
Definition local_ls : Cmd.t :=
  Cmd.mk LocalCommand (PyList [PyStr "ls"]) None (Some ".") None EmptyString.

(** [RemoteCommand(login, "ls")]. *)
Definition remote_ls : Cmd.t :=
  Cmd.mk RemoteCommand (PyStr "ls") (Some login) None None EmptyString.

(** The [CommandTimedOut] a local [sleep 1] raises after one second. *)
Definition sleep_timed_out : Exn :=
  mkExn CommandTimedOut
        (local_timeout_msg
           (Cmd.mk LocalCommand (PyList [PyStr "sleep"; PyStr "1"]) None
                   (Some ".") None EmptyString) (Some 1))
        (Some Result.empty).

(** A world in which a command fails three times and succeeds after. *)
Definition fourth_time_lucky : nat -> Request -> RawOutcome :=
  fun i _ =>
    match i with
    | 0%nat | 1%nat | 2%nat => Completed EmptyString "not yet" 1
    | _ => Completed "done" EmptyString 0
    end.

(** ** More of the package *)

(** The lines written to error loggers, oldest first. *)
Fixpoint log_lines (tr : list Event) : list (Logger * string) :=
  match tr with
  | [] => []
  | EvLogError lg msg :: r => (lg, msg) :: log_lines r
  | _ :: r => log_lines r
  end.

(** The world let the command run to its end or to its timeout, rather than
    fail in some other way. *)
Definition answered (raw : RawOutcome) : bool :=
  match raw with
  | Raised _ _ => false
  | _ => true
  end.

(** ** [CommandBase.__str__] and [CommandBase.__repr__] *)

(** [type(v).__name__]. *)
Definition py_type_name (v : PyVal) : string :=
  match v with
  | PyNone => "NoneType"
  | PyBool _ => "bool"
  | PyInt _ => "int"
  | PyStr _ => "str"
  | PyList _ => "list"
  end.

(** [' '.join(l)], from item [i] on: every item must be a string. *)
Fixpoint join_from (i : nat) (l : list PyVal) {struct l} : Res string :=
  match l with
  | [] => Val EmptyString
  | v :: r =>
      match v with
      | PyStr s =>
          match r with
          | [] => Val s
          | _ :: _ =>
              match join_from (S i) r with
              | Val t => Val (s ++ " " ++ t)
              | Exc e => Exc e
              end
          end
      | _ =>
          Exc (mkExn TypeError
                 ("sequence item " ++ str_of_int (Z.of_nat i)
                    ++ ": expected str instance, " ++ py_type_name v
                    ++ " found")
                 None)
      end
  end.

(** The text both methods start from: the joined argument vector, or the
    command as it is. *)
Definition command_text (s : Cmd.t) : Res PyVal :=
  match Cmd.command s with
  | PyList l =>
      match join_from 0 l with
      | Val t => Val (PyStr t)
      | Exc e => Exc e
      end
  | v => Val v
  end.

(** [CommandBase.__str__]. *)
Definition CommandBase_str (s : Cmd.t) : Res PyVal := command_text s.

(** [f"{self.__class__}"]. *)
Definition class_repr (c : CmdClass) : string :=
  match c with
  | LocalCommand => "<class 'lrcmd.local.LocalCommand'>"
  | RemoteCommand => "<class 'lrcmd.remote.RemoteCommand'>"
  end.

(** [CommandBase.__repr__]: without a connection it applies unary [+] to a
    string. *)
Definition CommandBase_repr (s : Cmd.t) : Res string :=
  match command_text s with
  | Exc e => Exc e
  | Val cmd =>
      let r := "< " ++ class_repr (Cmd.cls s) ++ ": '" ++ py_str cmd ++ "'" in
      match Cmd.connection s with
      | None =>
          Exc (mkExn TypeError "bad operand type for unary +: 'str'" None)
      | Some c => Val (r ++ ", " ++ label c ++ " >")
      end
  end.

(** A character that is neither blank, nor a quote, nor the escape
    character. *)
Definition is_plain (c : ascii) : bool :=
  negb (Shlex.is_whitespace c || Shlex.is_escape c || Shlex.is_quote c).

Fixpoint all_plain (s : string) : bool :=
  match s with
  | EmptyString => true
  | String c r => (is_plain c && all_plain r)%bool
  end.

(** A word as it stands on a command line: not empty, all plain. *)
Definition plain_word (s : string) : bool := (nonempty s && all_plain s)%bool.

(** ** The command wrappers ([lrcmd/commands.py]) *)

(** [os.path.join(path, *parts)] (POSIX). *)
Fixpoint os_path_join (path : string) (parts : list string) : string :=
  match parts with
  | [] => path
  | b :: r =>
      let path :=
        match b with
        | String "/"%char _ => b
        | _ =>
            if (negb (nonempty path)
                || Ascii.eqb (last (list_ascii_of_string path) " "%char)
                             "/"%char)%bool
            then path ++ b
            else path ++ "/" ++ b
        end in
      os_path_join path r
  end.

(** [os.path.basename(p)] (POSIX): what follows the last slash. *)
Fixpoint os_path_basename (p : string) : string :=
  match p with
  | EmptyString => EmptyString
  | String c r =>
      if has_char "/"%char r then os_path_basename r
      else if Ascii.eqb c "/"%char then r
      else p
  end.

(** [s[:-1]]. *)
Fixpoint drop_last (s : string) : string :=
  match s with
  | EmptyString => EmptyString
  | String c EmptyString => EmptyString
  | String c r => String c (drop_last r)
  end.

(** [os.environ[var]], [None] standing for [KeyError]. *)
Fixpoint environ_get (environ : list (string * string)) (var : string)
    : option string :=
  match environ with
  | [] => None
  | (k, v) :: r => if String.eqb k var then Some v else environ_get r var
  end.

(** The local machine as one call of a wrapper finds it: the environment,
    which paths exist, and what [os.makedirs], [shutil.rmtree] and
    [os.rename] do ([None]: they return; for [os.makedirs] an [OSError]
    comes with its [errno]). *)
Record LocalOs : Type := mkLocalOs {
  environ : list (string * string);
  os_path_exists : string -> bool;
  os_makedirs : string -> option (Z * Exn);
  shutil_rmtree : string -> option Exn;
  os_rename : string -> string -> option Exn
}.

(** [errno.EEXIST]. *)
Definition EEXIST : Z := 17.

Module Commands.

(** [run(cmd, connection)]: every other argument at its default. *)
Definition run1 (cmd : string) (connection : option Connection)
    (post_processor : option PostProcessor) (w : World.t)
    : option (Res Result.t * World.t) :=
  run 0 cmd connection (Some ".") true false None None post_processor 1 0 true
      w.

Definition index_error : Exn :=
  mkExn (OtherException "IndexError") "string index out of range" None.

(** [exists(p, connection, operator)]. *)
Definition exists_ (os : LocalOs) (p : string) (connection : option Connection)
    (operator : option string) (w : World.t) : option (Res bool * World.t) :=
  let test cmd :=
    match run1 cmd connection None w with
    | Some (Val _, w') => Some (Val true, w')
    | Some (Exc e, w') =>
        match exn_class e with
        | NonZeroReturnCode => Some (Val false, w')
        | _ => Some (Exc e, w')
        end
    | None => None
    end in
  match operator with
  | None =>
      match connection with
      | None => Some (Val (os_path_exists os p), w)
      | Some _ => test ("[ -e " ++ p ++ " ]")
      end
  | Some op => test ("[ " ++ op ++ " " ++ p ++ " ]")
  end.

(** The path argument of [ensure_dir]: a string, or the parts of a path. *)
Inductive PathArg : Type :=
| Path (p : string)
| Parts (l : list string).

(** [ensure_dir(p, connection)]. *)
Definition ensure_dir (os : LocalOs) (p : PathArg)
    (connection : option Connection) (w : World.t)
    : option (Res string * World.t) :=
  let joined :=
    match p with
    | Path s => Val s
    | Parts [] =>
        Exc (mkExn TypeError
               "join() missing 1 required positional argument: 'a'" None)
    | Parts (a :: r) => Val (os_path_join a r)
    end in
  match joined with
  | Exc e => Some (Exc e, w)
  | Val p =>
      match connection with
      | None =>
          match os_makedirs os p with
          | None => Some (Val p, w)
          | Some (errno, e) =>
              if negb (errno =? EEXIST) then Some (Exc e, w)
              else Some (Val p, w)
          end
      | Some _ =>
          match run1 ("mkdir -p " ++ p) connection None w with
          | Some (Val _, w') => Some (Val p, w')
          | Some (Exc e, w') => Some (Exc e, w')
          | None => None
          end
      end
  end.

(** [remove(p, connection)]. *)
Definition remove (os : LocalOs) (p : string) (connection : option Connection)
    (w : World.t) : option (Res unit * World.t) :=
  match connection with
  | None =>
      match shutil_rmtree os p with
      | None => Some (Val tt, w)
      | Some e => Some (Exc e, w)
      end
  | Some _ =>
      match run1 ("rm -rf " ++ p) connection None w with
      | Some (Val _, w') => Some (Val tt, w')
      | Some (Exc e, w') => Some (Exc e, w')
      | None => None
      end
  end.

(** [touch(file, path, connection)]. *)
Definition touch (os : LocalOs) (file path : string)
    (connection : option Connection) (w : World.t)
    : option (Res unit * World.t) :=
  match ensure_dir os (Path path) connection w with
  | Some (Val _, w1) =>
      match run1 ("touch " ++ os_path_join path [file]) connection None w1 with
      | Some (Val _, w2) => Some (Val tt, w2)
      | Some (Exc e, w2) => Some (Exc e, w2)
      | None => None
      end
  | Some (Exc e, w1) => Some (Exc e, w1)
  | None => None
  end.

(** [rename(src, dst, connection)]. *)
Definition rename (os : LocalOs) (src dst : string)
    (connection : option Connection) (w : World.t)
    : option (Res unit * World.t) :=
  match connection with
  | None =>
      match os_rename os src dst with
      | None => Some (Val tt, w)
      | Some e => Some (Exc e, w)
      end
  | Some _ =>
      match run1 ("mv " ++ src ++ " " ++ dst) connection None w with
      | Some (Val _, w') => Some (Val tt, w')
      | Some (Exc e, w') => Some (Exc e, w')
      | None => None
      end
  end.

(** [env(var, connection)]. *)
Definition env (os : LocalOs) (var : string) (connection : option Connection)
    (w : World.t) : option (Res string * World.t) :=
  match connection with
  | None =>
      match var with
      | EmptyString => Some (Exc index_error, w)
      | String c rest =>
          let var := if Ascii.eqb c "$"%char then rest else var in
          match environ_get (environ os) var with
          | Some val => Some (Val val, w)
          | None => Some (Val EmptyString, w)
          end
      end
  | Some _ =>
      match var with
      | EmptyString => Some (Exc index_error, w)
      | String c _ =>
          let cmd := if Ascii.eqb c "$"%char then "echo " ++ var
                     else "echo $" ++ var in
          match run1 cmd connection None w with
          | Some (Val result, w') =>
              match Result.stdout result with
              | Some out => Some (Val (drop_last out), w')
              | None =>
                  Some (Exc (attribute_error "types.SimpleNamespace" "stdout"),
                        w')
              end
          | Some (Exc e, w') => Some (Exc e, w')
          | None => None
          end
      end
  end.

Section Glob.

(** [fnmatch.fnmatch(name, pattern)] of the standard library. *)
Variable fnmatch : string -> string -> bool.

(** The loop of [glob] over the lines of the output. *)
Fixpoint matching (pattern : string) (files : list PyVal)
    : Res (list string) :=
  match files with
  | [] => Val []
  | PyStr file :: r =>
      let filename := os_path_basename file in
      match matching pattern r with
      | Val result =>
          Val (if fnmatch filename pattern then filename :: result
               else result)
      | Exc e => Exc e
      end
  | v :: _ =>
      Exc (mkExn TypeError
             ("expected str, bytes or os.PathLike object, not "
                ++ py_type_name v) None)
  end.

(** [glob(pattern, path, connection)]. *)
Definition glob (pattern path : string) (connection : option Connection)
    (w : World.t) : option (Res (list string) * World.t) :=
  match run1 ("find " ++ path ++ " -maxdepth 1 -type f") connection
             (Some list_of_lines) w with
  | Some (Val result, w') =>
      match Result.processed result with
      | Some (PyList files) => Some (matching pattern files, w')
      | Some v =>
          Some (Exc (mkExn TypeError
                       ("'" ++ py_type_name v ++ "' object is not iterable")
                       None), w')
      | None =>
          Some (Exc (attribute_error "types.SimpleNamespace" "processed"), w')
      end
  | Some (Exc e, w') => Some (Exc e, w')
  | None => None
  end.

End Glob.

End Commands.

(** The request a wrapper's [run(cmd, connection)] makes: the text is split
    into an argument vector for a local command and prefixed with the change
    of directory for a remote one. *)
Definition request_for (connection : option Connection) (cmd : string)
    : Res Request :=
  match connection with
  | None =>
      match Shlex.split cmd with
      | inr argv => Val (Spawn (PyList (map PyStr argv)) (Some ".") None)
      | inl e => Exc e
      end
  | Some c => Val (ExecCommand c (PyStr ("cd . && " ++ cmd)) None)
  end.

(** The world once it has answered request [q]. *)
Definition asked (q : Request) (w : World.t) : World.t :=
  World.mk (World.oracle w) (S (World.calls w)) (World.trace w ++ [EvRun q]).

(** The world's answer to the next request. *)
Definition answer (w : World.t) (q : Request) : RawOutcome :=
  World.oracle w (World.calls w) q.

(** A variable name written without the dollar sign. *)
Definition bare_name (var : string) : bool :=
  match var with
  | EmptyString => false
  | String c _ => negb (Ascii.eqb c "$"%char)
  end.

(** The command [exists] runs to test [p]. *)
Definition test_command (operator : option string) (p : string) : string :=
  "[ " ++ match operator with Some op => op | None => "-e" end
       ++ " " ++ p ++ " ]".

(** A local machine with one variable set, on which nothing exists yet and
    every directory can be made. *)
Definition bare_machine : LocalOs :=
  mkLocalOs [("HOME", "/home/me")] (fun _ => false) (fun _ => None)
            (fun _ => None) (fun _ _ => None).

(** A world in which [find] lists two files. *)
Definition two_files : nat -> Request -> RawOutcome :=
  fun _ _ => Completed ("./a.txt" ++ nl ++ "./b.log" ++ nl) EmptyString 0.

(** [copy_remote_to_local(connection, local_destination, remote_source,
    rename)].  [sftp_get remote local] is what opening the channel and
    fetching the file do: [None] when the file is copied, the exception
    otherwise. *)
Definition copy_remote_to_local (sftp_get : string -> string -> option Exn)
    (connection : Connection) (local_destination remote_source : string)
    (rename : PyVal) (w : World.t) : Res unit * World.t :=
  match sftp_get remote_source local_destination with
  | Some e => (Exc e, w)
  | None =>
      match rename with
      | PyStr name =>
          let command :=
            if nonempty name then "mv " ++ remote_source ++ " " ++ name
            else "rm -f " ++ remote_source in
          match RemoteCommand_init (Some connection) command None with
          | Exc e => (Exc e, w)
          | Val cmd =>
              match RemoteCommand_execute None true false None None
                                          (mkState cmd w) with
              | (Val _, st) => (Val tt, world st)
              | (Exc e, st) => (Exc e, world st)
              end
          end
      | PyBool false => (Val tt, w)
      | _ =>
          (Exc (mkExn ValueError
                  ("kwarg 'rename' must be str or False, got '"
                     ++ py_str rename ++ "'.") None), w)
      end
  end.

(** A channel over which every file arrives. *)
Definition sftp_ok : string -> string -> option Exn := fun _ _ => None.

(** * Properties *)

(** An argument vector in a message reads as Python prints a list. *)
Example py_str_argv :
  py_str (PyList [PyStr "ls"; PyStr "it's"])
  = "['ls', " ++ dq ++ "it's" ++ dq ++ "]".
Proof. reflexivity. Qed.

(** Case analysis on an innermost scrutinee of the goal. *)
Ltac break_match :=
  match goal with
  | |- context [match ?x with _ => _ end] =>
      lazymatch x with
      | context [match _ with _ => _ end] => fail
      | _ => destruct x eqn:?
      end
  end.

Lemma execute_frame pp check sie timeout elog (st : State) :
  execute pp check sie timeout elog st =
  let a := attempt pp check sie timeout elog (self st)
                   (World.oracle (world st)) (World.calls (world st)) in
  (fst a,
   mkState
     (Cmd.mk (Cmd.cls (self st)) (Cmd.command (self st))
             (Cmd.connection (self st)) (Cmd.working_directory (self st))
             (Cmd.result (self (snd a))) (Cmd.repeat_messages (self st)))
     (World.mk (World.oracle (world st)) (World.calls (world (snd a)))
               (World.trace (world st) ++ World.trace (world (snd a))))).
Proof.
  destruct st as [[c cm cn wd r rm] [o n tr]].
  unfold attempt, fresh, execute, LocalCommand_execute, RemoteCommand_execute,
    process_output, keep_partial, FailedCommand, get_result, attr, perform,
    bind, ret, raise, get_self, modify_self, emit, lift, World.emit; cbn.
  repeat (break_match; cbn in *; try congruence);
    rewrite ?app_nil_l, ?app_nil_r, <- ?app_assoc; reflexivity.
Qed.

Ltac unfold_exec :=
  unfold attempt, outcome_at, fresh, execute, LocalCommand_execute,
    RemoteCommand_execute, process_output, keep_partial, FailedCommand,
    get_result, attr, perform, bind, ret, raise, get_self, modify_self, emit,
    lift, World.emit, request_of, step_of, opt_list in *.

(** One attempt makes its request, if it can make one, and never sleeps. *)
Lemma attempt_trace pp check sie timeout elog cmd o i :
  let a := attempt pp check sie timeout elog cmd o i in
  requests (World.trace (world (snd a))) = opt_list (request_of cmd timeout)
  /\ sleeps (World.trace (world (snd a))) = []
  /\ World.calls (world (snd a)) = (i + step_of cmd)%nat.
Proof.
  destruct cmd as [c cm cn wd r rm].
  unfold_exec; cbn.
  repeat (break_match; cbn in *; try congruence);
    repeat split; try reflexivity; lia.
Qed.

(** Without a request the world's answers play no part. *)
Lemma outcome_without_request pp check sie timeout elog cmd o i o' i' :
  request_of cmd timeout = None ->
  outcome_at pp check sie timeout elog cmd o i
  = outcome_at pp check sie timeout elog cmd o' i'.
Proof.
  destruct cmd as [c cm cn wd r rm].
  unfold_exec; cbn.
  destruct c; cbn; [discriminate|].
  destruct cn; cbn; [discriminate|reflexivity].
Qed.

Lemma outcome_at_step pp check sie timeout elog cmd o c0 j :
  outcome_at pp check sie timeout elog cmd o (c0 + j * step_of cmd)
  = outcome_at pp check sie timeout elog cmd o (c0 + j).
Proof.
  destruct (request_of cmd timeout) eqn:E.
  - assert (step_of cmd = 1%nat) as ->.
    { unfold step_of, request_of in *.
      destruct (Cmd.cls cmd); [reflexivity|].
      destruct (Cmd.connection cmd); [reflexivity|discriminate]. }
    now rewrite Nat.mul_1_r.
  - now apply outcome_without_request.
Qed.

Lemma sleeps_app a b : sleeps (a ++ b) = (sleeps a ++ sleeps b)%list.
Proof.
  induction a as [|[] a IH]; cbn; rewrite ?IH; reflexivity.
Qed.

Lemma requests_app a b : requests (a ++ b) = (requests a ++ requests b)%list.
Proof.
  induction a as [|[] a IH]; cbn; rewrite ?IH; reflexivity.
Qed.

Lemma string_app_assoc (a b c : string) : (a ++ b) ++ c = a ++ (b ++ c).
Proof.
  induction a as [|x a IH]; cbn; [reflexivity|now rewrite IH].
Qed.

Lemma string_app_nil_r (a : string) : a ++ EmptyString = a.
Proof.
  induction a as [|x a IH]; cbn; [reflexivity|now rewrite IH].
Qed.

Lemma attempt_fresh pp check sie timeout elog s cmd o i :
  fresh s = fresh cmd ->
  attempt pp check sie timeout elog s o i
  = attempt pp check sie timeout elog cmd o i.
Proof. unfold attempt. now intros ->. Qed.

(** ** The retry loop, one iteration at a time *)
Section LoopSteps.

Variable pp : option PostProcessor.
Variables check sie verbose : bool.
Variable timeout : option Z.
Variable elog : option Logger.
Variables attempts wait : Z.

Local Abbreviation loop :=
  (repeat_loop pp check sie verbose timeout elog attempts wait).
Local Abbreviation exec := (execute pp check sie timeout elog).
Local Abbreviation logged := (logged verbose).
Local Abbreviation slept := (slept wait).

Lemma repeat_message_logged msg st :
  nonempty msg = true -> repeat_message msg verbose st = (Val tt, logged msg st).
Proof.
  intros H. unfold repeat_message, logged. rewrite H.
  unfold bind, emit, ret, modify_self. destruct verbose; reflexivity.
Qed.

Lemma failed_msg_nonempty n al e t : nonempty (failed_msg n al e t) = true.
Proof. reflexivity. Qed.

Lemma on_failure_sleeping al e stime st :
  al <> 0 -> 0 <= wait ->
  on_failure verbose attempts wait al e stime st
  = (Val true, slept (logged (failed_msg attempts al e stime) st)).
Proof.
  intros Hal Hw. unfold on_failure, bind.
  rewrite repeat_message_logged by apply failed_msg_nonempty.
  apply Z.eqb_neq in Hal. rewrite Hal. cbn.
  unfold sleep. apply Z.ltb_ge in Hw. rewrite Hw. reflexivity.
Qed.

Lemma on_failure_last e stime st :
  on_failure verbose attempts wait 0 e stime st
  = (Val false, logged (failed_msg attempts 0 e stime) st).
Proof.
  unfold on_failure, bind.
  rewrite repeat_message_logged by apply failed_msg_nonempty.
  reflexivity.
Qed.

(** A failed attempt that is not the last: log, sleep, go round again. *)
Lemma loop_step_retry fuel al stime slept_time st e :
  al <> 0 -> al - 1 <> 0 -> 0 <= wait ->
  fst (exec st) = Exc e -> is_Exception (exn_class e) = true ->
  loop (S fuel) al stime slept_time st
  = loop fuel (al - 1) (stime * 2) (slept_time + stime)
         (slept (logged (failed_msg attempts (al - 1) e stime)
                        (snd (exec st)))).
Proof.
  intros Hal Hal' Hw He Hc. cbn [repeat_loop].
  apply Z.eqb_neq in Hal. rewrite Hal.
  destruct (exec st) as [r st1]. cbn in He. subst r. rewrite Hc.
  rewrite on_failure_sleeping by assumption. reflexivity.
Qed.

(** The last attempt fails: log, then the loop condition is false. *)
Lemma loop_step_last fuel stime slept_time st e :
  fst (exec st) = Exc e -> is_Exception (exn_class e) = true ->
  loop (S (S fuel)) 1 stime slept_time st
  = Some (on_exhausted verbose attempts
            (logged (failed_msg attempts 0 e stime) (snd (exec st)))).
Proof.
  intros He Hc. cbn [repeat_loop]. cbn [Z.eqb].
  destruct (exec st) as [r st1]. cbn in He. subst r. rewrite Hc.
  replace (1 - 1) with 0 by reflexivity.
  rewrite on_failure_last. reflexivity.
Qed.

(** An attempt returns: the loop returns with it. *)
Lemma loop_step_success fuel al stime slept_time st r :
  al <> 0 -> fst (exec st) = Val r ->
  loop (S fuel) al stime slept_time st
  = Some (on_success verbose attempts al slept_time r (snd (exec st))).
Proof.
  intros Hal He. cbn [repeat_loop].
  apply Z.eqb_neq in Hal. rewrite Hal.
  destruct (exec st) as [r' st1]. cbn in He. now subst r'.
Qed.

(** An attempt raises what [except Exception] does not catch. *)
Lemma loop_step_propagate fuel al stime slept_time st e :
  al <> 0 -> fst (exec st) = Exc e -> is_Exception (exn_class e) = false ->
  loop (S fuel) al stime slept_time st = Some (Exc e, snd (exec st)).
Proof.
  intros Hal He Hc. cbn [repeat_loop].
  apply Z.eqb_neq in Hal. rewrite Hal.
  destruct (exec st) as [r' st1]. cbn in He. subst r'. now rewrite Hc.
Qed.

End LoopSteps.

(** What one [execute] call leaves behind, whatever it yields. *)
Lemma exec_state pp check sie timeout elog st :
  let st1 := snd (execute pp check sie timeout elog st) in
  fresh (self st1) = fresh (self st)
  /\ World.oracle (world st1) = World.oracle (world st)
  /\ World.calls (world st1)
     = (World.calls (world st) + step_of (self st))%nat
  /\ Cmd.repeat_messages (self st1) = Cmd.repeat_messages (self st)
  /\ sleeps (World.trace (world st1)) = sleeps (World.trace (world st))
  /\ requests (World.trace (world st1))
     = (requests (World.trace (world st))
        ++ opt_list (request_of (self st) timeout))%list.
Proof.
  cbn zeta. rewrite execute_frame. cbn [snd self world].
  destruct (attempt_trace pp check sie timeout elog (self st)
              (World.oracle (world st)) (World.calls (world st)))
    as (Hr & Hsl & Hcalls).
  cbn zeta in Hr, Hsl, Hcalls.
  cbn -[attempt]. rewrite sleeps_app, requests_app, Hr, Hsl, Hcalls.
  now rewrite app_nil_r.
Qed.

(** Logging a line touches the log and the diagnostic stream only. *)
Lemma logged_state verbose msg st :
  let st1 := logged verbose msg st in
  fresh (self st1) = fresh (self st)
  /\ World.oracle (world st1) = World.oracle (world st)
  /\ World.calls (world st1) = World.calls (world st)
  /\ Cmd.result (self st1) = Cmd.result (self st)
  /\ sleeps (World.trace (world st1)) = sleeps (World.trace (world st))
  /\ requests (World.trace (world st1)) = requests (World.trace (world st)).
Proof.
  unfold logged. destruct verbose; cbn;
    rewrite ?sleeps_app, ?requests_app; cbn; now rewrite ?app_nil_r.
Qed.

(** ** The retry loop after [j] failed attempts *)
Section LoopPrefix.

Variable pp : option PostProcessor.
Variables check sie verbose : bool.
Variable timeout : option Z.
Variable elog : option Logger.
Variables attempts wait : Z.
Variable cmd : Cmd.t.
Variable o : nat -> Request -> RawOutcome.
Variable c0 : nat.

Local Abbreviation loop :=
  (repeat_loop pp check sie verbose timeout elog attempts wait).
Local Abbreviation exec := (execute pp check sie timeout elog).
Local Abbreviation fails :=
  (fails_at pp check sie timeout elog cmd o c0).
Local Abbreviation reached :=
  (after_failures pp check sie timeout elog attempts wait cmd o c0).

(** What [execute] yields in a state the loop has reached. *)
Lemma exec_reached st j st' :
  reached st j st' ->
  fst (exec st')
  = outcome_at pp check sie timeout elog cmd o (c0 + j).
Proof.
  intros H. rewrite execute_frame. cbn [fst].
  rewrite (attempt_fresh _ _ _ _ _ _ cmd) by apply (af_static _ _ _ _ _ _ _ _ _ _ _ _ _ H).
  rewrite (af_oracle _ _ _ _ _ _ _ _ _ _ _ _ _ H),
          (af_calls _ _ _ _ _ _ _ _ _ _ _ _ _ H).
  apply outcome_at_step.
Qed.

Lemma fails_exn i :
  fails i = true ->
  exists e, outcome_at pp check sie timeout elog cmd o (c0 + i) = Exc e
            /\ exn_at pp check sie timeout elog cmd o c0 i = Some e
            /\ is_Exception (exn_class e) = true.
Proof.
  unfold fails_at, exn_at.
  destruct (outcome_at pp check sie timeout elog cmd o (c0 + i)) as [r|e];
    [discriminate|].
  intros H. now exists e.
Qed.

(** The state after [exec] and the logging of its failure, seen from the
    state the loop was in. *)
Lemma reached_next st j st' e msg :
  reached st j st' ->
  exn_at pp check sie timeout elog cmd o c0 j = Some e ->
  msg = failed_msg attempts (attempts - Z.of_nat j - 1) e
                   (wait * 2 ^ Z.of_nat j) ->
  let st1 := logged verbose msg (snd (exec st')) in
  fresh (self st1) = fresh cmd
  /\ World.oracle (world st1) = o
  /\ World.calls (world st1) = (c0 + S j * step_of cmd)%nat
  /\ Cmd.repeat_messages (self st1)
     = Cmd.repeat_messages (self st)
       ++ fail_log pp check sie timeout elog attempts wait cmd o c0 (S j)
  /\ sleeps (World.trace (world st1)) = sleeps (World.trace (world st'))
  /\ requests (World.trace (world st1))
     = (requests (World.trace (world st'))
        ++ opt_list (request_of cmd timeout))%list.
Proof.
  intros H He Hmsg st1. subst st1.
  destruct H as [Hs Ho Hc Hl _ _].
  rewrite execute_frame. cbn [snd].
  rewrite (attempt_fresh _ _ _ _ _ _ cmd) by exact Hs.
  destruct (attempt_trace pp check sie timeout elog cmd
              (World.oracle (world st')) (World.calls (world st')))
    as (Hr & Hsl & Hcalls).
  cbn zeta in Hr, Hsl, Hcalls.
  unfold logged; cbn -[attempt].
  repeat split.
  - exact Hs.
  - destruct verbose; exact Ho.
  - destruct verbose; cbn -[attempt]; rewrite Hcalls, Hc; lia.
  - rewrite Hl, string_app_assoc. do 2 f_equal.
    unfold fail_entry. rewrite He. now subst msg.
  - destruct verbose; cbn -[attempt]; rewrite ?sleeps_app; cbn -[attempt];
      rewrite ?sleeps_app, Hsl; cbn; now rewrite ?app_nil_r.
  - destruct verbose; cbn -[attempt]; rewrite ?requests_app; cbn -[attempt];
      rewrite ?requests_app, Hr; cbn; now rewrite ?app_nil_r.
Qed.

Lemma repeat_snoc {A} (x : A) n : (repeat x n ++ [x])%list = repeat x (S n).
Proof.
  induction n as [|n IH]; cbn; [reflexivity|]. now rewrite IH.
Qed.

Lemma concat_repeat_snoc {A} (l : list A) n :
  (List.concat (repeat l n) ++ l)%list = List.concat (repeat l (S n)).
Proof.
  induction n as [|n IH]; cbn; [now rewrite app_nil_r|].
  rewrite <- app_assoc. f_equal. exact IH.
Qed.

(** While attempts fail and some are left, the loop logs, sleeps [wait] and
    doubles the wait it announces. *)
Lemma loop_prefix j :
  forall fuel st,
    fresh (self st) = fresh cmd ->
    World.oracle (world st) = o ->
    World.calls (world st) = c0 ->
    Z.of_nat j < attempts -> 0 <= wait ->
    (forall i, (i < j)%nat -> fails i = true) ->
    exists st',
      reached st j st'
      /\ loop (j + fuel) attempts wait 0 st
         = loop fuel (attempts - Z.of_nat j) (wait * 2 ^ Z.of_nat j)
                ((2 ^ Z.of_nat j - 1) * wait) st'.
Proof.
  induction j as [|j IH]; intros fuel st Hs Ho Hc Hj Hw Hf.
  - exists st. split.
    + constructor; cbn; rewrite ?app_nil_r, ?string_app_nil_r;
        auto; lia.
    + cbn [Nat.add Z.of_nat]. f_equal; lia.
  - destruct (IH (S fuel) st Hs Ho Hc) as (st' & Hr & Heq);
      [lia|assumption|auto|].
    destruct (fails_exn j) as (e & Hout & Hexn & Hcls); [apply Hf; lia|].
    pose proof (exec_reached _ _ _ Hr) as Hexec. rewrite Hout in Hexec.
    replace (S j + fuel)%nat with (j + S fuel)%nat by lia.
    rewrite Heq.
    rewrite (loop_step_retry pp check sie verbose timeout elog attempts wait
               fuel _ _ _ st' e); [|lia|lia|assumption|assumption|assumption].
    set (msg := failed_msg attempts (attempts - Z.of_nat j - 1) e
                           (wait * 2 ^ Z.of_nat j)).
    destruct (reached_next st j st' e msg Hr Hexn eq_refl)
      as (H1 & H2 & H3 & H4 & H5 & H6).
    exists (slept wait (logged verbose msg (snd (exec st')))). split.
    + destruct Hr as [_ _ _ _ Hsl Hrq].
      constructor; cbn [slept self world World.emit World.oracle World.calls
                        World.trace]; auto.
      * rewrite sleeps_app, H5, Hsl. cbn. rewrite <- app_assoc.
        f_equal. apply repeat_snoc.
      * rewrite requests_app, H6, Hrq. cbn. rewrite app_nil_r.
        rewrite <- app_assoc. f_equal. apply concat_repeat_snoc.
    + replace (Z.of_nat (S j)) with (Z.of_nat j + 1) by lia.
      rewrite Z.pow_add_r by lia.
      f_equal; fold msg; try lia.
Qed.

End LoopPrefix.

(** ** How [execute_repeat] ends *)
Section Endings.

Variable pp : option PostProcessor.
Variables check sie verbose : bool.
Variable timeout : option Z.
Variable elog : option Logger.
Variables attempts wait : Z.

Local Abbreviation loop :=
  (repeat_loop pp check sie verbose timeout elog attempts wait).
Local Abbreviation exec := (execute pp check sie timeout elog).
Local Abbreviation retry :=
  (execute_repeat pp check sie verbose timeout elog attempts wait).

Lemma execute_repeat_start fuel st :
  retry fuel st = loop fuel attempts wait 0 (reset st).
Proof. reflexivity. Qed.

Lemma on_exhausted_raises st :
  on_exhausted verbose attempts st
  = (Exc (mkExn RepeatedExecutionFailed
            (nl ++ (Cmd.repeat_messages (self st)
                    ++ (exhausted_msg attempts ++ nl))) None),
     logged verbose (exhausted_msg attempts) st).
Proof.
  unfold on_exhausted, bind.
  rewrite repeat_message_logged by reflexivity.
  reflexivity.
Qed.

Lemma on_success_returns al slept_time r st :
  let msg := succeeded_msg attempts al slept_time in
  let r' := stamped (Cmd.repeat_messages (self st) ++ (msg ++ nl))
                    (attempts - al + 1) r in
  on_success verbose attempts al slept_time r st
  = (Val r',
     mkState (Cmd.set_result r' (self (logged verbose msg st)))
             (world (logged verbose msg st))).
Proof.
  unfold on_success, bind, modify_self. cbn [self world].
  rewrite repeat_message_logged by reflexivity.
  reflexivity.
Qed.

Section From.

Variable st : State.

Local Abbreviation cmd := (self st).
Local Abbreviation o := (World.oracle (world st)).
Local Abbreviation c0 := (World.calls (world st)).
Local Abbreviation fails := (fails_at pp check sie timeout elog cmd o c0).
Local Abbreviation outcome :=
  (fun i => outcome_at pp check sie timeout elog cmd o (c0 + i)).
Local Abbreviation log :=
  (fail_log pp check sie timeout elog attempts wait cmd o c0).
Local Abbreviation reached :=
  (after_failures pp check sie timeout elog attempts wait cmd o c0 (reset st)).

Lemma prefix_from_start j fuel :
  Z.of_nat j < attempts -> 0 <= wait ->
  (forall i, (i < j)%nat -> fails i = true) ->
  exists st',
    reached j st'
    /\ retry (j + fuel) st
       = loop fuel (attempts - Z.of_nat j) (wait * 2 ^ Z.of_nat j)
              ((2 ^ Z.of_nat j - 1) * wait) st'.
Proof.
  intros Hj Hw Hf. rewrite execute_repeat_start.
  apply loop_prefix; auto.
Qed.

(** All attempts fail: [RepeatedExecutionFailed] with the whole log, after
    [attempts - 1] sleeps of [wait] seconds each. *)
Lemma execute_repeat_exhausted (m : nat) fuel :
  attempts = Z.of_nat (S m) -> 0 <= wait ->
  (forall i, (i <= m)%nat -> fails i = true) ->
  exists st',
    retry (m + S (S fuel)) st
    = Some (Exc (mkExn RepeatedExecutionFailed
                   (nl ++ (log (S m) ++ (exhausted_msg attempts ++ nl)))
                   None), st')
    /\ sleeps (World.trace (world st'))
       = (sleeps (World.trace (world st)) ++ repeat wait m)%list
    /\ requests (World.trace (world st'))
       = (requests (World.trace (world st))
          ++ List.concat (repeat (opt_list (request_of cmd timeout)) (S m)))%list.
Proof.
  intros Hn Hw Hf.
  destruct (prefix_from_start m (S (S fuel))) as (st' & Hr & Heq);
    [lia|assumption|intros; apply Hf; lia|].
  destruct (fails_exn pp check sie timeout elog cmd o c0 m)
    as (e & Hout & Hexn & Hcls); [apply Hf; lia|].
  pose proof Hr as Hexec. apply exec_reached in Hexec.
  rewrite Hout in Hexec.
  rewrite Heq. replace (attempts - Z.of_nat m) with 1 by lia.
  rewrite (loop_step_last pp check sie verbose timeout elog attempts wait
             fuel _ _ st' e Hexec Hcls).
  rewrite on_exhausted_raises.
  destruct (reached_next pp check sie verbose timeout elog attempts wait
              cmd o c0 _ _ _ e
              (failed_msg attempts 0 e (wait * 2 ^ Z.of_nat m)) Hr Hexn)
    as (H1 & H2 & H3 & H4 & H5 & H6).
  { f_equal. lia. }
  eexists. split; [|split].
  - rewrite H4. reflexivity.
  - destruct Hr as [_ _ _ _ Hsl _].
    unfold logged at 1. cbn [world].
    destruct verbose; cbn [World.emit World.trace];
      rewrite ?sleeps_app, H5, Hsl; cbn; now rewrite ?app_nil_r.
  - destruct Hr as [_ _ _ _ _ Hrq].
    unfold logged at 1. cbn [world].
    destruct verbose; cbn [World.emit World.trace];
      rewrite ?requests_app, H6, Hrq; cbn [requests];
      rewrite ?app_nil_r, <- app_assoc; f_equal; apply concat_repeat_snoc.
Qed.

(** The attempt after [j] failures returns: so does [execute_repeat], with
    the attempt's result stamped [j + 1], and nothing more is asked of the
    world. *)
Lemma execute_repeat_returns (j : nat) fuel r0 :
  Z.of_nat j < attempts -> 0 <= wait ->
  (forall i, (i < j)%nat -> fails i = true) ->
  outcome j = Val r0 ->
  exists st',
    retry (j + S fuel) st
    = Some (Val (stamped
                   (log j ++ (succeeded_msg attempts (attempts - Z.of_nat j)
                                ((2 ^ Z.of_nat j - 1) * wait) ++ nl))
                   (Z.of_nat j + 1) r0), st')
    /\ sleeps (World.trace (world st'))
       = (sleeps (World.trace (world st)) ++ repeat wait j)%list
    /\ requests (World.trace (world st'))
       = (requests (World.trace (world st))
          ++ List.concat (repeat (opt_list (request_of cmd timeout)) (S j)))%list.
Proof.
  intros Hj Hw Hf Hout.
  destruct (prefix_from_start j (S fuel)) as (st' & Hr & Heq);
    [lia|assumption|assumption|].
  pose proof Hr as Hexec. apply exec_reached in Hexec.
  rewrite Hout in Hexec.
  rewrite Heq.
  rewrite (loop_step_success pp check sie verbose timeout elog attempts wait
             fuel _ _ _ st' r0) by (assumption || lia).
  rewrite on_success_returns. cbn zeta.
  destruct (exec_state pp check sie timeout elog st')
    as (H1 & H2 & H3 & H4 & H5 & H6). cbn zeta in *.
  destruct (logged_state verbose
              (succeeded_msg attempts (attempts - Z.of_nat j)
                             ((2 ^ Z.of_nat j - 1) * wait))
              (snd (exec st'))) as (L1 & L2 & L3 & L4 & L5 & L6).
  cbn zeta in *.
  destruct Hr as [Hs Ho Hc Hl Hsl Hrq].
  eexists. split; [|split].
  - rewrite H4, Hl. cbn [reset self Cmd.set_repeat_messages Cmd.repeat_messages].
    cbn [append].
    replace (attempts - (attempts - Z.of_nat j) + 1) with (Z.of_nat j + 1)
      by lia.
    reflexivity.
  - cbn [world]. rewrite L5, H5, Hsl. reflexivity.
  - cbn [world]. rewrite L6, H6, Hrq.
    replace (request_of (self st') timeout) with (request_of cmd timeout).
    + rewrite <- app_assoc. f_equal. apply concat_repeat_snoc.
    + unfold request_of. unfold fresh in Hs. now inversion Hs.
Qed.

(** The attempt after [j] failures raises what [except Exception] lets
    through: it leaves [execute_repeat] at once. *)
Lemma execute_repeat_propagates (j : nat) fuel e :
  Z.of_nat j < attempts -> 0 <= wait ->
  (forall i, (i < j)%nat -> fails i = true) ->
  outcome j = Exc e -> is_Exception (exn_class e) = false ->
  exists st',
    retry (j + S fuel) st = Some (Exc e, st')
    /\ Cmd.repeat_messages (self st') = log j
    /\ sleeps (World.trace (world st'))
       = (sleeps (World.trace (world st)) ++ repeat wait j)%list
    /\ requests (World.trace (world st'))
       = (requests (World.trace (world st))
          ++ List.concat (repeat (opt_list (request_of cmd timeout)) (S j)))%list.
Proof.
  intros Hj Hw Hf Hout Hcls.
  destruct (prefix_from_start j (S fuel)) as (st' & Hr & Heq);
    [lia|assumption|assumption|].
  pose proof Hr as Hexec. apply exec_reached in Hexec.
  rewrite Hout in Hexec.
  rewrite Heq.
  rewrite (loop_step_propagate pp check sie verbose timeout elog attempts wait
             fuel _ _ _ st' e) by (assumption || lia).
  destruct (exec_state pp check sie timeout elog st')
    as (H1 & H2 & H3 & H4 & H5 & H6). cbn zeta in *.
  destruct Hr as [Hs Ho Hc Hl Hsl Hrq].
  eexists. split; [reflexivity|]. split; [|split].
  - rewrite H4, Hl. reflexivity.
  - rewrite H5, Hsl. reflexivity.
  - rewrite H6, Hrq.
    replace (request_of (self st') timeout) with (request_of cmd timeout).
    + rewrite <- app_assoc. f_equal. apply concat_repeat_snoc.
    + unfold request_of. unfold fresh in Hs. now inversion Hs.
Qed.

End From.

End Endings.

(** ** The output checker *)

(** [process_output] on a result whose three attributes are set. *)
Lemma process_output_completed pp check sie elog s w out err rc p a m :
  let r := Result.mk (Some out) (Some err) (Some rc) p a m in
  let st := mkState (Cmd.set_result r s) w in
  process_output pp check sie elog st
  = if (check && negb (rc =? 0))%bool then
      (Exc (mkExn NonZeroReturnCode (nonzero_msg s rc err) (Some r)),
       noted elog (nonzero_msg s rc err) st)
    else if (sie && nonempty err)%bool then
      (Exc (mkExn Stderr (stderr_msg s err) (Some r)),
       noted elog (stderr_msg s err) st)
    else
      match pp with
      | None => (Val r, st)
      | Some f =>
          match f out with
          | Val v =>
              (Val (Result.set_processed v r),
               mkState (Cmd.set_result (Result.set_processed v r) s) w)
          | Exc e => (Exc e, st)
          end
      end.
Proof.
  destruct s as [c cm cn wd r0 rm].
  unfold process_output, FailedCommand, get_result, attr, bind, ret, raise,
    get_self, modify_self, emit, lift, noted.
  destruct check, sie, elog, pp as [f|];
    repeat (cbn -[Z.eqb nonempty]; try reflexivity; break_match).
Qed.

Lemma occurs_in_here (a b : string) : occurs_in a (a ++ b).
Proof. now exists EmptyString, b. Qed.

Lemma occurs_in_later (x a b : string) : occurs_in x b -> occurs_in x (a ++ b).
Proof.
  intros (u & v & ->). exists (a ++ u), v. now rewrite string_app_assoc.
Qed.

Lemma occurs_in_end (a : string) : occurs_in a a.
Proof. exists EmptyString, EmptyString. cbn. now rewrite string_app_nil_r. Qed.

(** C4: the checks of [process_output] come in the order the specification
    gives, the first failure winning: a non-zero exit code under [check]
    raises [NonZeroReturnCode], whose message holds the command text, the exit
    code and the standard error; else non-empty standard error under
    [stderr_is_error] raises [Stderr]; else a post-processor, if given, is
    applied to the standard output and its value stored in [processed].  With
    both flags set, a non-zero exit code wins over standard error. *)
Theorem process_output_order pp check sie elog s w out err rc p a m :
  let r := Result.mk (Some out) (Some err) (Some rc) p a m in
  let st := mkState (Cmd.set_result r s) w in
  match OutputChecker_spec check sie rc err (is_some pp) with
  | NonZeroExit =>
      fst (process_output pp check sie elog st)
      = Exc (mkExn NonZeroReturnCode (nonzero_msg s rc err) (Some r))
  | StderrOutput =>
      fst (process_output pp check sie elog st)
      = Exc (mkExn Stderr (stderr_msg s err) (Some r))
  | PostProcess =>
      exists f, pp = Some f
        /\ match f out with
           | Val v =>
               process_output pp check sie elog st
               = (Val (Result.set_processed v r),
                  mkState (Cmd.set_result (Result.set_processed v r) s) w)
               /\ Result.processed (Result.set_processed v r) = Some v
           | Exc e => process_output pp check sie elog st = (Exc e, st)
           end
  | Unchanged => process_output pp check sie elog st = (Val r, st)
  end
  /\ (occurs_in (py_str (Cmd.command s)) (nonzero_msg s rc err)
      /\ occurs_in (str_of_int rc) (nonzero_msg s rc err)
      /\ occurs_in err (nonzero_msg s rc err))
  /\ ((rc =? 0) = false -> nonempty err = true ->
      fst (process_output pp true true elog st)
      = Exc (mkExn NonZeroReturnCode (nonzero_msg s rc err) (Some r))).
Proof.
  cbn zeta. split; [|split].
  - rewrite process_output_completed. cbn zeta.
    unfold OutputChecker_spec.
    destruct (check && negb (rc =? 0))%bool; [reflexivity|].
    destruct (sie && nonempty err)%bool; [reflexivity|].
    destruct pp as [f|]; cbn [is_some]; [|reflexivity].
    exists f. split; [reflexivity|].
    destruct (f out); [split; reflexivity|reflexivity].
  - unfold nonzero_msg. repeat split.
    + do 4 apply occurs_in_later. apply occurs_in_here.
    + do 8 apply occurs_in_later. apply occurs_in_here.
    + do 11 apply occurs_in_later. apply occurs_in_end.
  - intros H _. rewrite process_output_completed. cbn zeta.
    now rewrite H.
Qed.

(** C10: whatever the result record and the arguments, [process_output]
    leaves [stdout], [stderr] and [returncode] as they were, whether it returns
    or raises; when it raises the command object is untouched, and when it
    returns the only attribute it may have written is [processed]. *)
Theorem process_output_frame pp check sie elog st :
  let out := process_output pp check sie elog st in
  option_map Result.stdout (Cmd.result (self (snd out)))
  = option_map Result.stdout (Cmd.result (self st))
  /\ option_map Result.stderr (Cmd.result (self (snd out)))
     = option_map Result.stderr (Cmd.result (self st))
  /\ option_map Result.returncode (Cmd.result (self (snd out)))
     = option_map Result.returncode (Cmd.result (self st))
  /\ match fst out with
     | Exc _ => self (snd out) = self st
     | Val r' =>
         Cmd.result (self (snd out)) = Some r'
         /\ (self (snd out) = self st
             \/ exists r v,
                 Cmd.result (self st) = Some r
                 /\ self (snd out)
                    = Cmd.set_result (Result.set_processed v r) (self st))
     end.
Proof.
  destruct st as [[c cm cn wd [[so se rc p a m]|] rm] w].
  - unfold process_output, FailedCommand, get_result, attr, bind, ret, raise,
      get_self, modify_self, emit, lift.
    destruct check, sie, elog, pp as [f|];
      repeat (cbn -[Z.eqb nonempty]; try (repeat split; reflexivity);
              try (repeat split; try reflexivity; left; reflexivity);
              try (repeat split; try reflexivity; right; eauto; fail);
              break_match).
  - unfold process_output, FailedCommand, get_result, attr, bind, ret, raise,
      get_self, modify_self, emit, lift.
    destruct check, sie, elog, pp as [f|]; cbn; repeat split; reflexivity.
Qed.

(** ** Post-processing *)

(** One attempt with a post-processor, against the same attempt without. *)
Lemma execute_post_processor (f : PostProcessor) check sie timeout elog st :
  match execute None check sie timeout elog st with
  | (Exc e, st1) => execute (Some f) check sie timeout elog st = (Exc e, st1)
  | (Val r, st1) =>
      Result.processed r = None
      /\ exists out,
           Result.stdout r = Some out
           /\ execute (Some f) check sie timeout elog st
              = match f out with
                | Val v =>
                    (Val (Result.set_processed v r),
                     mkState (Cmd.set_result (Result.set_processed v r)
                                             (self st1)) (world st1))
                | Exc e => (Exc e, st1)
                end
  end.
Proof.
  destruct st as [[c cm cn wd r rm] [o n tr]].
  unfold execute, LocalCommand_execute, RemoteCommand_execute,
    process_output, keep_partial, FailedCommand, get_result, attr, perform,
    bind, ret, raise, get_self, modify_self, emit, lift, World.emit.
  repeat (cbn -[Z.eqb nonempty];
          try reflexivity;
          try (split; [reflexivity|eexists; split; [reflexivity|];
               break_match; reflexivity]);
          break_match).
Qed.

(** The retry loop with a post-processor that accepts the output, against the
    same loop without one. *)
Lemma repeat_loop_post_processor (f : PostProcessor) check sie verbose timeout
    elog attempts wait fuel :
  forall al stime slept_time st r st1,
    repeat_loop None check sie verbose timeout elog attempts wait fuel al
                stime slept_time st = Some (Val r, st1) ->
    Result.processed r = None
    /\ exists out,
         Result.stdout r = Some out
         /\ forall v, f out = Val v ->
              repeat_loop (Some f) check sie verbose timeout elog attempts
                          wait fuel al stime slept_time st
              = Some (Val (Result.set_processed v r),
                      mkState (Cmd.set_result (Result.set_processed v r)
                                              (self st1)) (world st1)).
Proof.
  induction fuel as [|fuel IH]; intros al stime slept_time st r st1 H;
    [discriminate|].
  cbn [repeat_loop] in *.
  destruct (al =? 0).
  { rewrite on_exhausted_raises in H. discriminate. }
  pose proof (execute_post_processor f check sie timeout elog st) as Hf.
  destruct (execute None check sie timeout elog st) as [[r0|e] st0].
  - destruct Hf as (Hp & out & Hout & Hf).
    rewrite on_success_returns in H. cbn zeta in H.
    inversion H; subst r st1; clear H.
    split; [exact Hp|]. exists out. split; [exact Hout|].
    intros v Hv. rewrite Hf, Hv.
    rewrite on_success_returns. cbn zeta.
    reflexivity.
  - rewrite Hf.
    destruct (is_Exception (exn_class e)); [|discriminate].
    destruct (on_failure verbose attempts wait (al - 1) e stime st0)
      as [[[|]|e'] st2]; [apply IH|apply IH|discriminate]; exact H.
Qed.

(** C7: when [run] without a post-processor returns a result, that result
    holds the captured standard output [s] and no [processed] attribute, and
    for every post-processor [f] that yields a value on [s] the same [run]
    with [f] returns the same result with [processed] set to [f s]. *)
Theorem run_post_processor fuel command connection wd check sie timeout elog
    (f : PostProcessor) attempts wait verbose w r w' :
  run fuel command connection wd check sie timeout elog None attempts wait
      verbose w = Some (Val r, w') ->
  Result.processed r = None
  /\ exists s,
       Result.stdout r = Some s
       /\ forall v, f s = Val v ->
            run fuel command connection wd check sie timeout elog (Some f)
                attempts wait verbose w
            = Some (Val (Result.set_processed v r), w')
            /\ Result.processed (Result.set_processed v r) = Some v
            /\ Result.stdout (Result.set_processed v r) = Some s.
Proof.
  unfold run.
  destruct (match connection with
            | Some c => RemoteCommand_init (Some c) command wd
            | None => LocalCommand_init (PyStr command) wd
            end) as [cmd|e]; [|discriminate].
  destruct (attempts =? 1).
  - pose proof (execute_post_processor f check sie timeout elog
                  (mkState cmd w)) as Hf.
    destruct (execute None check sie timeout elog (mkState cmd w))
      as [[r0|e] st0]; intros H; inversion H; subst r w'; clear H.
    destruct Hf as (Hp & s & Hs & Hf).
    split; [exact Hp|]. exists s. split; [exact Hs|].
    intros v Hv. rewrite Hf, Hv. repeat split. exact Hs.
  - unfold execute_repeat. cbn [bind modify_self repeat_message nonempty].
    cbn beta iota.
    destruct (repeat_loop None check sie verbose timeout elog attempts wait
                fuel attempts wait 0 _) as [[[r0|e] st0]|] eqn:E;
      intros H; inversion H; subst r w'; clear H.
    destruct (repeat_loop_post_processor f _ _ _ _ _ _ _ _ _ _ _ _ _ _ E)
      as (Hp & s & Hs & Hf).
    split; [exact Hp|]. exists s. split; [exact Hs|].
    intros v Hv. rewrite (Hf v Hv). repeat split. exact Hs.
Qed.

(** ** The lexer of [shlex.split] *)

Lemma run_app l a b : Shlex.run l (a ++ b) = Shlex.run (Shlex.run l a) b.
Proof.
  revert l. induction a as [|c a IH]; intros l; cbn; [reflexivity|apply IH].
Qed.

Lemma step_same l l' c :
  same_lex l l' -> same_lex (Shlex.step l c) (Shlex.step l' c).
Proof.
  destruct l as [st tok q es ts], l' as [st' tok' q' es' ts'].
  intros (H1 & H2 & H3 & H4 & H5). cbn in *. subst st' tok' q' ts'.
  unfold Shlex.step, Shlex.end_word, Shlex.emit_token; cbn.
  destruct st; cbn.
  - repeat (break_match; cbn); repeat split; auto; discriminate.
  - repeat (break_match; cbn); repeat split; auto; discriminate.
  - repeat (break_match; cbn); repeat split; auto; discriminate.
  - rewrite <- (H5 eq_refl). repeat split; auto.
Qed.

Lemma run_same s : forall l l',
  same_lex l l' -> same_lex (Shlex.run l s) (Shlex.run l' s).
Proof.
  induction s as [|c s IH]; intros l l' H; cbn; [exact H|].
  apply IH, step_same, H.
Qed.

Lemma finish_same l l' : same_lex l l' -> Shlex.finish l = Shlex.finish l'.
Proof.
  intros (H1 & H2 & H3 & H4 & _). unfold Shlex.finish.
  now rewrite H1, H2, H3, H4.
Qed.

Lemma step_prepend pre l c :
  Shlex.step (prepend pre l) c = prepend pre (Shlex.step l c).
Proof.
  destruct l as [st tok q es ts].
  unfold prepend, Shlex.step, Shlex.end_word, Shlex.emit_token; cbn.
  destruct st; cbn; repeat (break_match; cbn);
    rewrite <- ?app_assoc; reflexivity.
Qed.

Lemma run_prepend pre s : forall l,
  Shlex.run (prepend pre l) s = prepend pre (Shlex.run l s).
Proof.
  induction s as [|c s IH]; intros l; cbn; [reflexivity|].
  now rewrite step_prepend, IH.
Qed.

Lemma finish_prepend pre l :
  Shlex.finish (prepend pre l)
  = match Shlex.finish l with
    | inr ts => inr (pre ++ ts)%list
    | inl e => inl e
    end.
Proof.
  destruct l as [st tok q es ts]. unfold prepend, Shlex.finish; cbn.
  destruct st; cbn; try reflexivity;
    destruct (nonempty tok || q)%bool; rewrite <- ?app_assoc; reflexivity.
Qed.

(** Lexing from between two tokens adds to what was produced. *)
Lemma split_between ts s :
  Shlex.finish (Shlex.run (between_tokens ts) s)
  = match Shlex.split s with
    | inr l => inr (ts ++ l)%list
    | inl e => inl e
    end.
Proof.
  unfold Shlex.split.
  replace (between_tokens ts) with (prepend ts Shlex.init)
    by (unfold prepend, between_tokens; cbn; now rewrite app_nil_r).
  now rewrite run_prepend, finish_prepend.
Qed.

(** A blank after a text that lexes well leaves the lexer between tokens. *)
Lemma split_then_blank a ts rest :
  Shlex.split a = inr ts ->
  Shlex.finish (Shlex.run Shlex.init (a ++ String " "%char rest))
  = Shlex.finish (Shlex.run (between_tokens ts) rest).
Proof.
  unfold Shlex.split. intros H.
  rewrite run_app. cbn [Shlex.run].
  apply finish_same, run_same.
  destruct (Shlex.run Shlex.init a) as [st tok q es l].
  unfold Shlex.finish in H. cbn in H.
  unfold Shlex.step, Shlex.end_word, Shlex.emit_token, between_tokens.
  destruct st; try discriminate; cbn;
    destruct (nonempty tok || q)%bool eqn:E; inversion H; subst ts;
    repeat split; cbn; try discriminate;
    destruct tok, q; cbn in E; try discriminate; reflexivity.
Qed.

(** Plain text inside quotes is taken as it stands, up to the closing
    quote. *)
Lemma run_in_quote q s : forall tok b es ts rest,
  all_plain_in q s = true ->
  Shlex.run (Shlex.mk (Shlex.InQuote q) tok b es ts) (s ++ String q rest)
  = Shlex.run (Shlex.mk Shlex.InWord (tok ++ s) true es ts) rest.
Proof.
  induction s as [|c s IH]; intros tok b es ts rest H.
  - cbn. rewrite Ascii.eqb_refl, string_app_nil_r. reflexivity.
  - cbn in H. apply andb_prop in H as [Hc Hs].
    unfold plain_in in Hc. apply andb_prop in Hc as [Hc1 Hc2].
    cbn [append Shlex.run]. unfold Shlex.step at 1.
    cbn [Shlex.state Shlex.token Shlex.quoted Shlex.escapedstate
         Shlex.tokens].
    apply negb_true_iff in Hc1, Hc2. rewrite Hc1, Hc2.
    rewrite IH by exact Hs. unfold Shlex.snoc.
    now rewrite string_app_assoc.
Qed.

(** ** [shlex.quote] *)

Lemma safe_is_plain c :
  Shlex.is_safe c = true ->
  Shlex.is_whitespace c = false /\ Shlex.is_escape c = false
  /\ Shlex.is_quote c = false.
Proof.
  destruct c as [[] [] [] [] [] [] [] []]; vm_compute; intros H;
    repeat split; (reflexivity || discriminate).
Qed.

Lemma run_safe_word s : forall tok q es ts,
  Shlex.all_safe s = true ->
  Shlex.run (Shlex.mk Shlex.InWord tok q es ts) s
  = Shlex.mk Shlex.InWord (tok ++ s) q es ts.
Proof.
  induction s as [|c s IH]; intros tok q es ts H; cbn [Shlex.run].
  - now rewrite string_app_nil_r.
  - cbn in H. apply andb_prop in H as [Hc Hs].
    destruct (safe_is_plain c Hc) as (Hw & He & Hq).
    unfold Shlex.step.
    cbn [Shlex.state Shlex.token Shlex.quoted Shlex.escapedstate
         Shlex.tokens].
    rewrite Hw, He, Hq, IH by exact Hs.
    unfold Shlex.snoc. now rewrite string_app_assoc.
Qed.

Lemma run_escape_quotes s : forall tok b es ts rest,
  Shlex.run (Shlex.mk (Shlex.InQuote "'"%char) tok b es ts)
            (Shlex.escape_quotes s ++ String "'"%char rest)
  = Shlex.run (Shlex.mk Shlex.InWord (tok ++ s) true es ts) rest.
Proof.
  induction s as [|c s IH]; intros tok b es ts rest.
  - cbn. now rewrite string_app_nil_r.
  - cbn [Shlex.escape_quotes].
    destruct (Ascii.eqb c "'"%char) eqn:E.
    + apply Ascii.eqb_eq in E. subst c.
      cbn -[Shlex.escape_quotes].
      rewrite IH.
      unfold Shlex.snoc. now rewrite string_app_assoc.
    + cbn [append Shlex.run]. unfold Shlex.step at 1.
      cbn [Shlex.state Shlex.token Shlex.quoted Shlex.escapedstate
           Shlex.tokens].
      rewrite E. change (Shlex.is_escapedquote "'"%char) with false.
      rewrite andb_false_r. cbv iota.
      rewrite IH. unfold Shlex.snoc. now rewrite string_app_assoc.
Qed.

(** From between two tokens, a quoted text lexes to the text, in one word
    that the next blank or the end of input will close. *)
Lemma run_quote d es ts rest :
  exists q',
    (nonempty d || q')%bool = true
    /\ Shlex.run (Shlex.mk Shlex.InSpace EmptyString false es ts)
                 (Shlex.quote d ++ rest)
       = Shlex.run (Shlex.mk Shlex.InWord d q' es ts) rest.
Proof.
  unfold Shlex.quote. destruct d as [|c d].
  - exists true. split; reflexivity.
  - cbn [nonempty negb].
    destruct (Shlex.all_safe (String c d)) eqn:E.
    + exists false. split; [reflexivity|].
      cbn in E. apply andb_prop in E as [Hc Hs].
      destruct (safe_is_plain c Hc) as (Hw & He & Hq).
      cbn [append Shlex.run]. unfold Shlex.step at 1.
      cbn [Shlex.state Shlex.token Shlex.quoted Shlex.escapedstate
           Shlex.tokens].
      rewrite Hw, He, Hq, run_app, run_safe_word by exact Hs.
      reflexivity.
    + exists true. split; [reflexivity|].
      rewrite !string_app_assoc.
      change ("'" ++ Shlex.escape_quotes (String c d) ++ "'" ++ rest)
        with (String "'"%char
                (Shlex.escape_quotes (String c d) ++ String "'"%char rest)).
      cbn [Shlex.run].
      change (Shlex.step (Shlex.mk Shlex.InSpace EmptyString false es ts)
                         "'"%char)
        with (Shlex.mk (Shlex.InQuote "'"%char) EmptyString false es ts).
      rewrite run_escape_quotes. reflexivity.
Qed.

(** Word-splitting a quoted text gives the text back, as one word. *)
Lemma split_quote d : Shlex.split (Shlex.quote d) = inr [d].
Proof.
  unfold Shlex.split, Shlex.init.
  destruct (run_quote d Shlex.InSpace [] EmptyString) as (q' & Hq & H).
  rewrite string_app_nil_r in H. rewrite H. cbn [Shlex.run].
  unfold Shlex.finish. cbn [Shlex.state Shlex.token Shlex.quoted Shlex.tokens].
  now rewrite Hq.
Qed.

(** In the command a remote executor sends, the directory is one word. *)
Lemma split_cd d command :
  Shlex.split ("cd " ++ Shlex.quote d ++ " && " ++ command)
  = match Shlex.split command with
    | inr l => inr ("cd" :: d :: "&&" :: l)
    | inl e => inl e
    end.
Proof.
  unfold Shlex.split at 1.
  change ("cd " ++ Shlex.quote d ++ " && " ++ command)
    with (String "c" (String "d" (String " "
            (Shlex.quote d ++ " && " ++ command)))).
  cbn [Shlex.run].
  change (Shlex.step (Shlex.step (Shlex.step Shlex.init "c") "d") " ")
    with (between_tokens ["cd"]).
  unfold between_tokens.
  destruct (run_quote d Shlex.InSpace ["cd"] (" && " ++ command))
    as (q' & Hq & H).
  rewrite H.
  change (" && " ++ command)
    with (String " " (String "&" (String "&" (String " " command)))).
  cbn [Shlex.run]. unfold Shlex.step at 4.
  cbn [Shlex.state Shlex.is_whitespace Ascii.eqb Bool.eqb orb].
  unfold Shlex.end_word.
  cbn [Shlex.token Shlex.quoted]. rewrite Hq.
  change (Shlex.step (Shlex.step (Shlex.step
            (Shlex.emit_token Shlex.InSpace
               (Shlex.mk Shlex.InWord d q' Shlex.InSpace ["cd"])) "&") "&") " ")
    with (between_tokens ["cd"; d; "&&"]).
  rewrite split_between.
  destruct (Shlex.split command); reflexivity.
Qed.

(** A quoted segment between blanks is one argument, whatever it holds short
    of its own quote (and, inside double quotes, of the escape character). *)
Lemma split_quoted_segment q seg a b la lb :
  Shlex.is_quote q = true -> all_plain_in q seg = true ->
  Shlex.split a = inr la -> Shlex.split b = inr lb ->
  Shlex.split (a ++ String " "%char
                 (String q (seg ++ String q (String " "%char b))))
  = inr (la ++ seg :: lb)%list.
Proof.
  intros Hq Hseg Ha Hb. unfold Shlex.split at 1.
  rewrite (split_then_blank a la) by exact Ha.
  cbn [Shlex.run].
  assert (Shlex.step (between_tokens la) q
          = Shlex.mk (Shlex.InQuote q) EmptyString false Shlex.InSpace la)
    as ->.
  { unfold Shlex.step, between_tokens.
    cbn [Shlex.state Shlex.token Shlex.quoted Shlex.escapedstate
         Shlex.tokens].
    rewrite Hq.
    destruct q as [[] [] [] [] [] [] [] []]; try discriminate; reflexivity. }
  rewrite run_in_quote by exact Hseg.
  cbn [Shlex.run append].
  change (Shlex.step (Shlex.mk Shlex.InWord seg true Shlex.InSpace la)
                     " "%char)
    with (Shlex.end_word (Shlex.mk Shlex.InWord seg true Shlex.InSpace la)).
  unfold Shlex.end_word. cbn [Shlex.token Shlex.quoted].
  rewrite orb_true_r. unfold Shlex.emit_token.
  cbn [Shlex.tokens Shlex.token].
  change (Shlex.mk Shlex.InSpace EmptyString false Shlex.InSpace
                   (la ++ [seg])%list)
    with (between_tokens (la ++ [seg])).
  rewrite split_between, Hb, <- app_assoc. reflexivity.
Qed.

(** ** The constructors *)

(** C8: a remote command built with a non-empty working directory [d] runs
    ['cd <d'> && <command>'], where [d'] is [shlex.quote d]; word-splitting
    [d'] gives back [d] as a single word, also inside that command; with no
    working directory (or an empty one) the command text is unchanged. *)
Theorem remote_command_cd k command c d' check sie timeout elog pp w :
  let d := String c d' in
  let text := "cd " ++ Shlex.quote d ++ " && " ++ command in
  let cmd := Cmd.mk RemoteCommand (PyStr text) (Some k) (Some d) None
                    EmptyString in
  RemoteCommand_init (Some k) command (Some d) = Val cmd
  /\ requests (World.trace (world (snd (execute pp check sie timeout elog
                                               (mkState cmd w)))))
     = (requests (World.trace w) ++ [ExecCommand k (PyStr text) timeout])%list
  /\ Shlex.split (Shlex.quote d) = inr [d]
  /\ Shlex.split text
     = match Shlex.split command with
       | inr l => inr ("cd" :: d :: "&&" :: l)
       | inl e => inl e
       end
  /\ RemoteCommand_init (Some k) command None
     = Val (Cmd.mk RemoteCommand (PyStr command) (Some k) None None
                   EmptyString)
  /\ RemoteCommand_init (Some k) command (Some EmptyString)
     = Val (Cmd.mk RemoteCommand (PyStr command) (Some k) (Some EmptyString)
                   None EmptyString).
Proof.
  cbn zeta. repeat split.
  - destruct (exec_state pp check sie timeout elog
                (mkState (Cmd.mk RemoteCommand
                            (PyStr ("cd " ++ Shlex.quote (String c d')
                                      ++ " && " ++ command))
                            (Some k) (Some (String c d')) None EmptyString) w))
      as (_ & _ & _ & _ & _ & H).
    exact H.
  - apply split_quote.
  - apply split_cd.
Qed.

(** C9: [LocalCommand] refuses with [TypeError] whatever is not a string; a
    string is split into the argument vector that [execute] then hands to the
    child process, and a quoted segment of it stays one argument. *)
Theorem local_command_tokenized v wd check sie timeout elog pp w :
  match v with
  | PyStr text =>
      match Shlex.split text with
      | inr argv =>
          let cmd := Cmd.mk LocalCommand (PyList (map PyStr argv)) None wd
                            None EmptyString in
          LocalCommand_init v wd = Val cmd
          /\ requests (World.trace (world (snd (execute pp check sie timeout
                                                        elog (mkState cmd w)))))
             = (requests (World.trace w)
                ++ [Spawn (PyList (map PyStr argv)) wd timeout])%list
      | inl e => LocalCommand_init v wd = Exc e
      end
  | _ =>
      LocalCommand_init v wd
      = Exc (mkExn TypeError
               ("Expecting " ++ dq ++ "str" ++ dq ++ " for command.") None)
  end
  /\ forall q seg a b la lb,
       Shlex.is_quote q = true -> all_plain_in q seg = true ->
       Shlex.split a = inr la -> Shlex.split b = inr lb ->
       Shlex.split (a ++ String " "%char
                      (String q (seg ++ String q (String " "%char b))))
       = inr (la ++ seg :: lb)%list.
Proof.
  split; [|apply split_quoted_segment].
  destruct v; try reflexivity.
  unfold LocalCommand_init. cbn.
  destruct (Shlex.split s) as [e|argv]; cbn; [reflexivity|].
  split; [reflexivity|].
  destruct (exec_state pp check sie timeout elog
              (mkState (Cmd.mk LocalCommand (PyList (map PyStr argv)) None wd
                               None EmptyString) w))
    as (_ & _ & _ & _ & _ & H).
  exact H.
Qed.

(** ** The dispatcher *)

Lemma on_failure_cases verbose attempts wait al e stime st :
  let st1 := logged verbose (failed_msg attempts al e stime) st in
  on_failure verbose attempts wait al e stime st
  = if al =? 0 then (Val false, st1)
    else if wait <? 0
         then (Exc (mkExn ValueError "sleep length must be non-negative" None),
               st1)
         else (Val true, slept wait st1).
Proof.
  cbn zeta. unfold on_failure, bind.
  rewrite repeat_message_logged by apply failed_msg_nonempty.
  destruct (al =? 0); cbn; [reflexivity|].
  unfold sleep. destruct (wait <? 0); reflexivity.
Qed.

Lemma request_of_fresh s s' timeout :
  fresh s = fresh s' -> request_of s timeout = request_of s' timeout.
Proof. unfold fresh, request_of. intros H. now inversion H. Qed.

(** Whatever the retry loop comes to, every request it made is the one
    request of its command, and its command is still the same. *)
Lemma loop_requests pp check sie verbose timeout elog attempts wait fuel :
  forall al stime slept_time st res st',
    repeat_loop pp check sie verbose timeout elog attempts wait fuel al stime
                slept_time st = Some (res, st') ->
    exists n,
      requests (World.trace (world st'))
      = (requests (World.trace (world st))
         ++ List.concat (repeat (opt_list (request_of (self st) timeout)) n))%list.
Proof.
  induction fuel as [|fuel IH]; intros al stime slept_time st res st' H;
    [discriminate|].
  cbn [repeat_loop] in H.
  destruct (al =? 0).
  { rewrite on_exhausted_raises in H.
    destruct (logged_state verbose (exhausted_msg attempts) st)
      as (_ & _ & _ & _ & _ & L).
    cbn zeta in L.
    set (stl := logged verbose (exhausted_msg attempts) st) in *.
    clearbody stl. inversion H; subst. exists 0%nat.
    rewrite L. cbn. now rewrite app_nil_r. }
  destruct (exec_state pp check sie timeout elog st)
    as (E1 & _ & _ & _ & _ & E6). cbn zeta in E1, E6.
  destruct (execute pp check sie timeout elog st) as [[r|e] st1];
    cbn [snd] in E1, E6.
  - rewrite on_success_returns in H. cbn zeta in H.
    destruct (logged_state verbose
                (succeeded_msg attempts al slept_time) st1)
      as (_ & _ & _ & _ & _ & L).
    cbn zeta in L.
    set (stl := logged verbose (succeeded_msg attempts al slept_time) st1)
      in *.
    clearbody stl. inversion H; subst. exists 1%nat. cbn [world].
    rewrite L, E6. cbn. now rewrite app_nil_r.
  - destruct (is_Exception (exn_class e)).
    + rewrite on_failure_cases in H. cbn zeta in H.
      destruct (logged_state verbose
                  (failed_msg attempts (al - 1) e stime) st1)
        as (L1 & _ & _ & _ & _ & L6).
      cbn zeta in L1, L6.
      set (stl := logged verbose (failed_msg attempts (al - 1) e stime) st1)
        in *.
      clearbody stl.
      assert (forall st2 res0,
                 fresh (self st2) = fresh (self st1) ->
                 requests (World.trace (world st2))
                 = requests (World.trace (world st1)) ->
                 forall a b c,
                 repeat_loop pp check sie verbose timeout elog attempts wait
                             fuel a b c st2 = Some (res0, st') ->
                 exists n,
                   requests (World.trace (world st'))
                   = (requests (World.trace (world st))
                      ++ List.concat
                           (repeat (opt_list (request_of (self st) timeout))
                                   n))%list) as Hnext.
      { intros st2 res0 Hf Hr a b c Hloop.
        destruct (IH _ _ _ _ _ _ Hloop) as (n & Hn).
        exists (S n). rewrite Hn, Hr, E6.
        rewrite (request_of_fresh (self st2) (self st)) by congruence.
        cbn. now rewrite <- app_assoc. }
      destruct (al - 1 =? 0).
      * eapply Hnext; [| |exact H]; [exact L1|exact L6].
      * destruct (wait <? 0).
        -- inversion H; subst. exists 1%nat. rewrite L6, E6. cbn.
           now rewrite app_nil_r.
        -- eapply Hnext; [| |exact H].
           ++ exact L1.
           ++ unfold slept. cbn. rewrite requests_app, L6. cbn.
              now rewrite app_nil_r.
    + inversion H; subst. exists 1%nat. rewrite E6. cbn.
      now rewrite app_nil_r.
Qed.

Lemma concat_repeat_singleton {A} (x : A) n :
  List.concat (repeat [x] n) = repeat x n.
Proof. induction n as [|n IH]; cbn; [reflexivity|now rewrite IH]. Qed.

(** C6: [run] builds a local command when no connection is given and a remote
    command bound to the connection otherwise; with [attempts = 1] it is one
    [execute] call, with [attempts > 1] it is [execute_repeat] with those
    [attempts] and [wait]; and every request it makes goes to the executor
    chosen. *)
Theorem run_dispatch fuel command connection wd check sie timeout elog pp
    attempts wait verbose w :
  let go := run fuel command connection wd check sie timeout elog pp attempts
                wait verbose w in
  let built := match connection with
               | None => LocalCommand_init (PyStr command) wd
               | Some c => RemoteCommand_init (Some c) command wd
               end in
  match built with
  | Exc e => go = Some (Exc e, w)
  | Val cmd =>
      match connection with
      | None =>
          Cmd.cls cmd = LocalCommand
          /\ request_of cmd timeout
             = Some (Spawn (Cmd.command cmd) wd timeout)
      | Some c =>
          Cmd.cls cmd = RemoteCommand
          /\ request_of cmd timeout
             = Some (ExecCommand c (Cmd.command cmd) timeout)
      end
      /\ (attempts = 1 ->
          go = Some (fst (execute pp check sie timeout elog (mkState cmd w)),
                     world (snd (execute pp check sie timeout elog
                                         (mkState cmd w)))))
      /\ (attempts > 1 ->
          go = match execute_repeat pp check sie verbose timeout elog
                                    attempts wait fuel (mkState cmd w) with
               | Some (r, st) => Some (r, world st)
               | None => None
               end)
      /\ (forall res w',
             go = Some (res, w') ->
             exists n q,
               request_of cmd timeout = Some q
               /\ requests (World.trace w')
                  = (requests (World.trace w) ++ repeat q n)%list)
  end.
Proof.
  cbn zeta. unfold run.
  set (built := match connection with
                | Some c => RemoteCommand_init (Some c) command wd
                | None => LocalCommand_init (PyStr command) wd
                end).
  assert (forall cmd, built = Val cmd ->
            match connection with
            | None =>
                Cmd.cls cmd = LocalCommand
                /\ request_of cmd timeout
                   = Some (Spawn (Cmd.command cmd) wd timeout)
            | Some c =>
                Cmd.cls cmd = RemoteCommand
                /\ request_of cmd timeout
                   = Some (ExecCommand c (Cmd.command cmd) timeout)
            end) as Hbuilt.
  { subst built. intros cmd. destruct connection as [c|].
    - unfold RemoteCommand_init. cbn.
      destruct (truthy_dir wd); intros H; inversion H; subst; now split.
    - unfold LocalCommand_init. cbn.
      destruct (Shlex.split command); cbn; intros H; inversion H; subst.
      now split. }
  destruct built as [cmd|e]; [|reflexivity].
  specialize (Hbuilt cmd eq_refl).
  assert (exists q, request_of cmd timeout = Some q) as (q & Hq).
  { destruct connection; destruct Hbuilt as (_ & H); eauto. }
  split; [exact Hbuilt|]. split; [|split].
  - intros ->. cbn [Z.eqb Pos.eqb].
    now destruct (execute pp check sie timeout elog (mkState cmd w)).
  - intros H. replace (attempts =? 1) with false; [reflexivity|].
    symmetry. apply Z.eqb_neq. lia.
  - intros res w' H.
    destruct (attempts =? 1).
    + destruct (exec_state pp check sie timeout elog (mkState cmd w))
        as (_ & _ & _ & _ & _ & E6). cbn zeta in E6.
      destruct (execute pp check sie timeout elog (mkState cmd w))
        as [r st1]. inversion H; subst.
      exists 1%nat, q. split; [exact Hq|].
      cbn [snd self world] in E6. rewrite E6, Hq. reflexivity.
    + unfold execute_repeat in H.
      cbn [bind modify_self repeat_message nonempty] in H.
      cbn beta iota in H.
      destruct (repeat_loop pp check sie verbose timeout elog attempts wait
                  fuel attempts wait 0 _) as [[r st1]|] eqn:E;
        [|discriminate].
      inversion H; subst.
      destruct (loop_requests _ _ _ _ _ _ _ _ _ _ _ _ _ _ _ E) as (n & Hn).
      exists n, q. split; [exact Hq|].
      rewrite Hn. cbn [self world]. 
      rewrite (request_of_fresh _ cmd) by reflexivity.
      rewrite Hq. cbn [opt_list]. now rewrite concat_repeat_singleton.
Qed.

(** ** The retry engine *)

(** An attempt that returns has made its request. *)
Lemma outcome_val_request pp check sie timeout elog cmd o i r :
  outcome_at pp check sie timeout elog cmd o i = Val r ->
  exists q, request_of cmd timeout = Some q.
Proof.
  destruct cmd as [c cm cn wd r0 rm]. unfold request_of. cbn.
  destruct c; [eauto|]. destruct cn; [eauto|].
  unfold_exec. cbn. discriminate.
Qed.

(** C5: if the [k]-th attempt ([1 <= k <= attempts]) is the first whose
    [execute] call raises no error, [execute_repeat] returns that attempt's
    result with [attempts = k], having made exactly [k] requests and slept
    [k - 1] times: nothing is attempted and no time is slept after it. *)
Theorem execute_repeat_first_success pp check sie verbose timeout elog
    attempts wait st (k fuel : nat) r0 :
  (1 <= k)%nat -> Z.of_nat k <= attempts -> 0 <= wait -> (k <= fuel)%nat ->
  (forall i, (i < k - 1)%nat ->
     fails_at pp check sie timeout elog (self st) (World.oracle (world st))
              (World.calls (world st)) i = true) ->
  outcome_at pp check sie timeout elog (self st) (World.oracle (world st))
             (World.calls (world st) + (k - 1)) = Val r0 ->
  exists r st',
    execute_repeat pp check sie verbose timeout elog attempts wait fuel st
    = Some (Val r, st')
    /\ Result.attempts r = Some (Z.of_nat k)
    /\ Result.stdout r = Result.stdout r0
    /\ Result.stderr r = Result.stderr r0
    /\ Result.returncode r = Result.returncode r0
    /\ Result.processed r = Result.processed r0
    /\ List.length (requests (World.trace (world st')))
       = (List.length (requests (World.trace (world st))) + k)%nat
    /\ sleeps (World.trace (world st'))
       = (sleeps (World.trace (world st)) ++ repeat wait (k - 1))%list.
Proof.
  intros Hk Hn Hw Hfuel Hfail Hout.
  destruct (execute_repeat_returns pp check sie verbose timeout elog attempts
              wait st (k - 1) (fuel - k) r0) as (st' & Hrun & Hsl & Hrq);
    [lia|assumption|assumption|assumption|].
  replace (k - 1 + S (fuel - k))%nat with fuel in Hrun by lia.
  destruct (outcome_val_request _ _ _ _ _ _ _ _ _ Hout) as (q & Hq).
  eexists. exists st'. split; [exact Hrun|].
  repeat split.
  - cbn. f_equal. lia.
  - rewrite Hrq, Hq. cbn [opt_list].
    rewrite concat_repeat_singleton, length_app, repeat_length. lia.
  - exact Hsl.
Qed.

Lemma fails_at_exn pp check sie timeout elog cmd o c0 i e :
  outcome_at pp check sie timeout elog cmd o (c0 + i) = Exc e ->
  exn_at pp check sie timeout elog cmd o c0 i = Some e
  /\ fails_at pp check sie timeout elog cmd o c0 i
     = is_Exception (exn_class e).
Proof.
  intros H. unfold fails_at, exn_at. now rewrite H.
Qed.

Lemma occurs_in_before (x a b : string) :
  occurs_in x a -> occurs_in x (a ++ b).
Proof.
  intros (u & v & ->). exists u, (v ++ b). now rewrite !string_app_assoc.
Qed.

(** The log line of a failure names the class of the error and its text. *)
Lemma failed_msg_shows n al e t :
  occurs_in (class_name (exn_class e) ++ ": " ++ exn_str e)
            (failed_msg n al e t).
Proof.
  exists ("Attempt " ++ str_of_int (n - al) ++ "/" ++ str_of_int n
            ++ " failed." ++ nl ++ "  "),
         (nl ++ "  Retrying after " ++ str_of_int t ++ " seconds.").
  unfold failed_msg. rewrite !string_app_assoc. reflexivity.
Qed.

(** C2, as the code has it: whatever error the attempt after [j] caught
    failures raises, if it is an instance of [Exception] (of any class, not
    only [NonZeroReturnCode], [Stderr] and [CommandTimedOut]) it is caught and
    logged, and then either the attempts are used up and
    [RepeatedExecutionFailed] is raised with the whole log, or the loop goes
    on with the attempts that are left; if it is no instance of [Exception]
    it leaves [execute_repeat] at once, unlogged. *)
Theorem execute_repeat_catches_every_Exception pp check sie verbose timeout
    elog attempts wait st (j fuel : nat) e :
  Z.of_nat j < attempts -> 0 <= wait ->
  (forall i, (i < j)%nat ->
     fails_at pp check sie timeout elog (self st) (World.oracle (world st))
              (World.calls (world st)) i = true) ->
  outcome_at pp check sie timeout elog (self st) (World.oracle (world st))
             (World.calls (world st) + j) = Exc e ->
  let log := fail_log pp check sie timeout elog attempts wait (self st)
                      (World.oracle (world st)) (World.calls (world st)) in
  if is_Exception (exn_class e) then
    occurs_in (class_name (exn_class e) ++ ": " ++ exn_str e) (log (S j))
    /\ if Z.of_nat (S j) =? attempts then
         exists st',
           execute_repeat pp check sie verbose timeout elog attempts wait
                          (j + S (S fuel)) st
           = Some (Exc (mkExn RepeatedExecutionFailed
                          (nl ++ (log (S j) ++ (exhausted_msg attempts ++ nl)))
                          None), st')
       else
         exists st',
           Cmd.repeat_messages (self st') = log (S j)
           /\ execute_repeat pp check sie verbose timeout elog attempts wait
                             (S j + fuel) st
              = repeat_loop pp check sie verbose timeout elog attempts wait
                            fuel (attempts - Z.of_nat (S j))
                            (wait * 2 ^ Z.of_nat (S j))
                            ((2 ^ Z.of_nat (S j) - 1) * wait) st'
  else
    exists st',
      execute_repeat pp check sie verbose timeout elog attempts wait
                     (j + S fuel) st = Some (Exc e, st')
      /\ Cmd.repeat_messages (self st') = log j.
Proof.
  intros Hj Hw Hfail Hout. cbn zeta.
  destruct (fails_at_exn _ _ _ _ _ _ _ _ _ _ Hout) as (Hexn & Hf).
  destruct (is_Exception (exn_class e)) eqn:Hcls.
  - assert (forall i, (i < S j)%nat ->
              fails_at pp check sie timeout elog (self st)
                       (World.oracle (world st)) (World.calls (world st)) i
              = true) as Hall.
    { intros i Hi. destruct (Nat.eq_dec i j) as [->|]; [exact Hf|].
      apply Hfail. lia. }
    split.
    + cbn [fail_log]. apply occurs_in_later.
      unfold fail_entry. rewrite Hexn.
      apply occurs_in_before, failed_msg_shows.
    + destruct (Z.of_nat (S j) =? attempts) eqn:E.
      * apply Z.eqb_eq in E.
        destruct (execute_repeat_exhausted pp check sie verbose timeout elog
                    attempts wait st j fuel) as (st' & H & _);
          [now symmetry|assumption| |eauto].
        intros i Hi. apply Hall. lia.
      * apply Z.eqb_neq in E.
        destruct (prefix_from_start pp check sie verbose timeout elog
                    attempts wait st (S j) fuel) as (st' & Hr & H);
          [lia|assumption|exact Hall|].
        exists st'. split; [|exact H].
        destruct Hr as [_ _ _ Hl _ _]. exact Hl.
  - destruct (execute_repeat_propagates pp check sie verbose timeout elog
                attempts wait st j fuel e) as (st' & H & Hl & _);
      try assumption.
    eauto.
Qed.

(** ** The code at particular inputs *)

(** C1: an always-failing command run with [attempts = 3] and [wait = 2]
    sleeps 2 and 2 seconds, 4 in all, before [RepeatedExecutionFailed], and not
    2 and 4, the 6 seconds of [maximum_wait_time]: the loop doubles the wait
    it announces in the log, and sleeps the initial wait every time.  The log
    of the error does hold the three attempts. *)
Theorem execute_repeat_sleeps_wait_each_time :
  exists e w',
    run 4 "sleep 1" None (Some ".") true false (Some 1) None None 3 2 false
        (World.init never_in_time) = Some (Exc e, w')
    /\ exn_class e = RepeatedExecutionFailed
    /\ exn_str e
       = nl ++ (failed_msg 3 2 sleep_timed_out 2 ++ nl)
            ++ (failed_msg 3 1 sleep_timed_out 4 ++ nl)
            ++ (failed_msg 3 0 sleep_timed_out 8 ++ nl)
            ++ (exhausted_msg 3 ++ nl)
    /\ List.length (requests (World.trace w')) = 3%nat
    /\ sleeps (World.trace w') = [2; 2]
    /\ total (sleeps (World.trace w')) = 4
    /\ maximum_wait_time 3 2 = 6.
Proof.
  eexists. eexists. split; [vm_compute; reflexivity|].
  repeat split.
Qed.

(** C2 fails as stated: an error raised by the post-processor (a
    [ValueError], none of the three kinds) does not leave [execute_repeat] at
    once; the command is run a second time and [RepeatedExecutionFailed] is
    raised when the attempts are used up. *)
Lemma post_processor_error_is_retried :
  outcome_at (Some rejecting) true false None None local_ls greeting 0
  = Exc (mkExn ValueError "unexpected output" None)
  /\ exists e st',
       execute_repeat (Some rejecting) true false false None None 2 0 3
                      (mkState local_ls (World.init greeting))
       = Some (Exc e, st')
       /\ exn_class e = RepeatedExecutionFailed
       /\ exn_class e <> ValueError
       /\ List.length (requests (World.trace (world st'))) = 2%nat.
Proof.
  split; [reflexivity|].
  eexists. eexists. split; [vm_compute; reflexivity|].
  repeat split. discriminate.
Qed.

(** C3 fails on two paths: the [CommandTimedOut] of a remote command and the
    [RepeatedExecutionFailed] of [execute_repeat] are built without
    [result=...], so their [result] is [None] although [self.result] holds
    the (partial) result at that moment. *)
Theorem errors_raised_without_result :
  (exists e st',
      execute None true false (Some 1) None
              (mkState remote_ls (World.init cut_short)) = (Exc e, st')
      /\ exn_class e = CommandTimedOut
      /\ is_FailedCommand (exn_class e) = true
      /\ exn_result e = None
      /\ Cmd.result (self st')
         = Some (Result.set_stdout "half" Result.empty))
  /\ (exists e st',
         execute_repeat None true false false None None 2 0 3
                        (mkState local_ls (World.init always_status_1))
         = Some (Exc e, st')
         /\ exn_class e = RepeatedExecutionFailed
         /\ is_FailedCommand (exn_class e) = true
         /\ exn_result e = None
         /\ Cmd.result (self st')
            = Some (Result.completed EmptyString "boom" 1))
  /\ (exists e st',
         execute None true false (Some 1) None
                 (mkState local_ls (World.init never_in_time)) = (Exc e, st')
         /\ exn_class e = CommandTimedOut
         /\ exn_result e = Some Result.empty).
Proof.
  split; [|split]; eexists; eexists;
    (split; [vm_compute; reflexivity|]); repeat split.
Qed.

(** ** The theorems at work *)

(** A command that fails once and then succeeds, run with [attempts = 3],
    returns with [attempts = 2] after two requests and one sleep. *)
Lemma execute_repeat_first_success_witness :
  exists r st',
    execute_repeat None true false true None None 3 1 3
                   (mkState local_ls (World.init second_time_lucky))
    = Some (Val r, st')
    /\ Result.attempts r = Some 2
    /\ Result.stdout r = Some "done"
    /\ Result.stderr r = Some EmptyString
    /\ Result.returncode r = Some 0
    /\ Result.processed r = None
    /\ List.length (requests (World.trace (world st'))) = 2%nat
    /\ sleeps (World.trace (world st')) = [1].
Proof.
  apply (execute_repeat_first_success None true false true None None 3 1
           (mkState local_ls (World.init second_time_lucky)) 2 3
           (Result.completed "done" EmptyString 0)).
  - lia.
  - lia.
  - lia.
  - lia.
  - intros i Hi. assert (i = 0%nat) as -> by lia. reflexivity.
  - reflexivity.
Defined.

(** A [ValueError] of the post-processor is caught and, the attempts being
    used up, turned into [RepeatedExecutionFailed]; a [KeyboardInterrupt]
    leaves at once. *)
Lemma execute_repeat_catches_every_Exception_witness :
  (exists st',
      execute_repeat (Some rejecting) true false false None None 2 0 3
                     (mkState local_ls (World.init greeting))
      = Some (Exc (mkExn RepeatedExecutionFailed
                     (nl ++ (fail_log (Some rejecting) true false None None
                                      2 0 local_ls greeting 0 2
                             ++ (exhausted_msg 2 ++ nl))) None), st'))
  /\ (exists st',
         execute_repeat None true false false None None 5 1 3
                        (mkState local_ls (World.init interrupted_third))
         = Some (Exc (mkExn KeyboardInterrupt EmptyString None), st')
         /\ Cmd.repeat_messages (self st')
            = fail_log None true false None None 5 1 local_ls
                       interrupted_third 0 2).
Proof.
  split.
  - pose proof (execute_repeat_catches_every_Exception (Some rejecting) true
                  false false None None 2 0
                  (mkState local_ls (World.init greeting)) 1 0
                  (mkExn ValueError "unexpected output" None)) as H.
    cbv zeta in H. apply H.
    + lia.
    + lia.
    + intros i Hi. assert (i = 0%nat) as -> by lia. reflexivity.
    + reflexivity.
  - pose proof (execute_repeat_catches_every_Exception None true
                  false false None None 5 1
                  (mkState local_ls (World.init interrupted_third)) 2 0
                  (mkExn KeyboardInterrupt EmptyString None)) as H.
    cbv zeta in H. apply H.
    + lia.
    + lia.
    + intros i Hi.
      assert (i = 0%nat \/ i = 1%nat) as [-> | ->] by lia; reflexivity.
    + reflexivity.
Defined.

(** [run("echo hello world", post_processor=list_of_lines)]. *)
Lemma run_post_processor_witness :
  let r := Result.completed ("hello world" ++ nl) EmptyString 0 in
  let w' := World.mk greeting 1
              [EvRun (Spawn (PyList [PyStr "echo"; PyStr "hello"; PyStr "world"])
                            (Some ".") None)] in
  run 1 "echo hello world" None (Some ".") true false None None None 1 0 true
      (World.init greeting) = Some (Val r, w')
  /\ run 1 "echo hello world" None (Some ".") true false None None
         (Some list_of_lines) 1 0 true (World.init greeting)
     = Some (Val (Result.set_processed
                    (PyList [PyStr "hello world"; PyStr EmptyString]) r), w').
Proof.
  cbv zeta.
  assert (run 1 "echo hello world" None (Some ".") true false None None None
              1 0 true (World.init greeting)
          = Some (Val (Result.completed ("hello world" ++ nl) EmptyString 0),
                  World.mk greeting 1
                    [EvRun (Spawn (PyList [PyStr "echo"; PyStr "hello";
                                           PyStr "world"])
                                  (Some ".") None)])) as Hrun
    by (vm_compute; reflexivity).
  split; [exact Hrun|].
  destruct (run_post_processor 1 "echo hello world" None (Some ".") true false
              None None list_of_lines 1 0 true (World.init greeting) _ _ Hrun)
    as (_ & s & Hs & H).
  injection Hs as <-.
  apply (H (PyList [PyStr "hello world"; PyStr EmptyString])).
  reflexivity.
Defined.

(** With both flags set, exit status 1 and text on standard error, the exit
    status is what is reported. *)
Lemma process_output_order_witness :
  fst (process_output None true true None
         (mkState (Cmd.set_result (Result.completed EmptyString "boom" 1)
                                  local_ls) (World.init always_status_1)))
  = Exc (mkExn NonZeroReturnCode (nonzero_msg local_ls 1 "boom")
               (Some (Result.completed EmptyString "boom" 1))).
Proof.
  destruct (process_output_order None true true None local_ls
              (World.init always_status_1) EmptyString "boom" 1 None None
              None) as (_ & _ & H).
  apply H; reflexivity.
Defined.

(** [printf 'hello world' done] is three arguments. *)
Lemma local_command_tokenized_witness :
  Shlex.split "printf 'hello world' done"
  = inr ["printf"; "hello world"; "done"].
Proof.
  destruct (local_command_tokenized PyNone None true false None None None
              (World.init greeting)) as (_ & H).
  apply (H "'"%char "hello world" "printf" "done" ["printf"] ["done"]);
    reflexivity.
Defined.

(** Without a connection and with three attempts, [run] is [execute_repeat]
    on a local command; with a connection and one attempt, it is [execute]
    on a remote command. *)
Lemma run_dispatch_witness :
  run 3 "ls" None (Some ".") true false None None None 3 1 false
      (World.init second_time_lucky)
  = match execute_repeat None true false false None None 3 1 3
                         (mkState local_ls (World.init second_time_lucky)) with
    | Some (r, st) => Some (r, world st)
    | None => None
    end
  /\ run 3 "ls" (Some login) None true false None None None 1 1 false
         (World.init greeting)
     = Some (fst (execute None true false None None
                          (mkState remote_ls (World.init greeting))),
             world (snd (execute None true false None None
                                 (mkState remote_ls (World.init greeting))))).
Proof.
  split.
  - pose proof (run_dispatch 3 "ls" None (Some ".") true false None None None
                  3 1 false (World.init second_time_lucky)) as H.
    cbv zeta in H.
    change (LocalCommand_init (PyStr "ls") (Some ".")) with (Val local_ls)
      in H.
    cbv beta iota in H. destruct H as (_ & _ & H & _).
    apply H. lia.
  - pose proof (run_dispatch 3 "ls" (Some login) None true false None None
                  None 1 1 false (World.init greeting)) as H.
    cbv zeta in H.
    change (RemoteCommand_init (Some login) "ls" None) with (Val remote_ls)
      in H.
    cbv beta iota in H. destruct H as (_ & H & _).
    apply H. reflexivity.
Defined.

(** * Further properties

    What the rest of the package does, and what the retry engine does at the
    edges of its arguments. *)

(** ** The retry engine at its edges *)

Lemma total_app a b : total (a ++ b) = total a + total b.
Proof.
  unfold total. induction a as [|x a IH]; cbn; [reflexivity|].
  rewrite IH. lia.
Qed.

Lemma total_repeat w m : total (repeat w m) = Z.of_nat m * w.
Proof.
  unfold total. induction m as [|m IH]; [reflexivity|].
  cbn [repeat fold_right]. rewrite IH. lia.
Qed.

(** X1: a command whose every attempt fails makes [attempts] requests, sleeps
    [attempts - 1] times, [wait] seconds each time, [(attempts - 1) * wait]
    seconds in all, and ends in a [RepeatedExecutionFailed] that carries no
    result. *)
Theorem execute_repeat_always_failing pp check sie verbose timeout elog
    attempts wait st (n fuel : nat) :
  attempts = Z.of_nat n -> (1 <= n)%nat -> 0 <= wait -> (n < fuel)%nat ->
  (forall i, (i < n)%nat ->
     fails_at pp check sie timeout elog (self st) (World.oracle (world st))
              (World.calls (world st)) i = true) ->
  exists e st',
    execute_repeat pp check sie verbose timeout elog attempts wait fuel st
    = Some (Exc e, st')
    /\ exn_class e = RepeatedExecutionFailed
    /\ exn_result e = None
    /\ sleeps (World.trace (world st'))
       = (sleeps (World.trace (world st)) ++ repeat wait (n - 1))%list
    /\ total (sleeps (World.trace (world st')))
       = total (sleeps (World.trace (world st))) + (attempts - 1) * wait
    /\ requests (World.trace (world st'))
       = (requests (World.trace (world st))
          ++ List.concat (repeat (opt_list (request_of (self st) timeout)) n))%list.
Proof.
  intros Hn H1 Hw Hfuel Hfail.
  destruct (execute_repeat_exhausted pp check sie verbose timeout elog
              attempts wait st (n - 1) (fuel - n - 1))
    as (st' & Hrun & Hsl & Hrq).
  - rewrite Hn. f_equal. lia.
  - exact Hw.
  - intros i Hi. apply Hfail. lia.
  - replace (n - 1 + S (S (fuel - n - 1)))%nat with fuel in Hrun by lia.
    replace (S (n - 1)) with n in Hrq by lia.
    eexists. exists st'. split; [exact Hrun|].
    repeat split; try assumption.
    rewrite Hsl, total_app, total_repeat. f_equal.
    rewrite Hn. rewrite Nat2Z.inj_sub by lia. reflexivity.
Qed.

Lemma execute_repeat_always_failing_witness :
  exists e st',
    execute_repeat None true false false (Some 1) None 4 3 5
                   (mkState local_ls (World.init never_in_time))
    = Some (Exc e, st')
    /\ exn_class e = RepeatedExecutionFailed
    /\ exn_result e = None
    /\ sleeps (World.trace (world st')) = [3; 3; 3]
    /\ total (sleeps (World.trace (world st'))) = 9
    /\ requests (World.trace (world st'))
       = repeat (Spawn (PyList [PyStr "ls"]) (Some ".") (Some 1)) 4.
Proof.
  apply (execute_repeat_always_failing None true false false (Some 1) None 4
           3 (mkState local_ls (World.init never_in_time)) 4 5).
  - reflexivity.
  - lia.
  - lia.
  - lia.
  - intros i Hi.
    assert (i = 0 \/ i = 1 \/ i = 2 \/ i = 3)%nat as [-> | [-> | [-> | ->]]]
      by lia; reflexivity.
Defined.

Lemma pow2_exceeds (m : nat) : (2 <= m)%nat -> Z.of_nat m + 1 < 2 ^ Z.of_nat m.
Proof.
  induction m as [|m IH]; intros H; [lia|].
  destruct (Nat.eq_dec m 1) as [->|]; [reflexivity|].
  replace (Z.of_nat (S m)) with (Z.of_nat m + 1) by lia.
  rewrite Z.pow_add_r by lia. change (2 ^ 1) with 2.
  assert (2 <= m)%nat as Hm by lia. specialize (IH Hm). lia.
Qed.

(** The seconds [maximum_wait_time] announces for [k] attempts are the
    seconds [k - 1] sleeps of [wait] take only up to two attempts, or with no
    wait at all. *)
Lemma maximum_wait_time_slept (k : nat) wait :
  (1 <= k)%nat ->
  maximum_wait_time (Z.of_nat k) wait = (Z.of_nat k - 1) * wait
  <-> (k <= 2)%nat \/ wait = 0.
Proof.
  intros Hk. unfold maximum_wait_time.
  replace (Z.of_nat k - 1) with (Z.of_nat (k - 1)) by lia.
  split.
  - intros H. destruct (Z.eq_dec wait 0) as [|Hw]; [now right|left].
    apply Z.mul_cancel_r in H; [|exact Hw].
    destruct (le_lt_dec (k - 1) 1) as [|Hlt]; [lia|].
    pose proof (pow2_exceeds (k - 1) Hlt). lia.
  - intros [H | ->]; [|lia].
    assert (k = 1 \/ k = 2)%nat as [-> | ->] by lia; reflexivity.
Qed.

(** X2: when the [k]-th attempt is the first to succeed, the last line of the
    log handed back in [Result.repeat_messages] says
    [maximum_wait_time k wait] seconds were slept, while [(k - 1) * wait]
    seconds were; the two agree only for [k <= 2] or [wait = 0]. *)
Theorem execute_repeat_reports_maximum_wait_time pp check sie verbose timeout
    elog attempts wait st (k fuel : nat) r0 :
  (1 <= k)%nat -> Z.of_nat k <= attempts -> 0 <= wait -> (k <= fuel)%nat ->
  (forall i, (i < k - 1)%nat ->
     fails_at pp check sie timeout elog (self st) (World.oracle (world st))
              (World.calls (world st)) i = true) ->
  outcome_at pp check sie timeout elog (self st) (World.oracle (world st))
             (World.calls (world st) + (k - 1)) = Val r0 ->
  exists r st',
    execute_repeat pp check sie verbose timeout elog attempts wait fuel st
    = Some (Val r, st')
    /\ Result.repeat_messages r
       = Some (fail_log pp check sie timeout elog attempts wait (self st)
                        (World.oracle (world st)) (World.calls (world st))
                        (k - 1)
               ++ (succeeded_msg attempts (attempts - Z.of_nat (k - 1))
                                 (maximum_wait_time (Z.of_nat k) wait) ++ nl))
    /\ total (sleeps (World.trace (world st')))
       = total (sleeps (World.trace (world st))) + (Z.of_nat k - 1) * wait
    /\ (maximum_wait_time (Z.of_nat k) wait = (Z.of_nat k - 1) * wait
        <-> (k <= 2)%nat \/ wait = 0).
Proof.
  intros Hk Hn Hw Hfuel Hfail Hout.
  destruct (execute_repeat_returns pp check sie verbose timeout elog attempts
              wait st (k - 1) (fuel - k) r0) as (st' & Hrun & Hsl & _);
    [lia|assumption|assumption|assumption|].
  replace (k - 1 + S (fuel - k))%nat with fuel in Hrun by lia.
  eexists. exists st'. split; [exact Hrun|]. split; [|split].
  - cbn [stamped Result.repeat_messages Result.set_attempts
         Result.set_repeat_messages].
    unfold maximum_wait_time.
    replace (Z.of_nat k - 1) with (Z.of_nat (k - 1)) by lia. reflexivity.
  - rewrite Hsl, total_app, total_repeat. f_equal. f_equal. lia.
  - apply maximum_wait_time_slept. exact Hk.
Qed.

Lemma execute_repeat_reports_maximum_wait_time_witness :
  exists r st',
    execute_repeat None true false false None None 5 3 5
                   (mkState local_ls (World.init fourth_time_lucky))
    = Some (Val r, st')
    /\ Result.repeat_messages r
       = Some (fail_log None true false None None 5 3 local_ls
                        fourth_time_lucky 0 3
               ++ (succeeded_msg 5 2 21 ++ nl))
    /\ total (sleeps (World.trace (world st'))) = 9
    /\ (maximum_wait_time 4 3 = 9 <-> (4 <= 2)%nat \/ 3 = 0).
Proof.
  apply (execute_repeat_reports_maximum_wait_time None true false false None
           None 5 3 (mkState local_ls (World.init fourth_time_lucky))
           4 5 (Result.completed "done" EmptyString 0)).
  - lia.
  - lia.
  - lia.
  - lia.
  - intros i Hi.
    assert (i = 0 \/ i = 1 \/ i = 2)%nat as [-> | [-> | ->]] by lia;
      reflexivity.
  - reflexivity.
Defined.

(** X3: with [attempts = 0] nothing is executed: [execute_repeat] raises
    [RepeatedExecutionFailed] at once, with a log that holds the exhaustion
    line only, having asked nothing of the world and slept no time; so does
    [run], once the command object is built. *)
Theorem execute_repeat_no_attempts pp check sie verbose timeout elog wait
    fuel st command connection wd w :
  let e := mkExn RepeatedExecutionFailed (nl ++ (exhausted_msg 0 ++ nl)) None in
  (execute_repeat pp check sie verbose timeout elog 0 wait (S fuel) st
   = Some (Exc e, logged verbose (exhausted_msg 0) (reset st))
   /\ requests (World.trace (world (logged verbose (exhausted_msg 0)
                                           (reset st))))
      = requests (World.trace (world st))
   /\ sleeps (World.trace (world (logged verbose (exhausted_msg 0)
                                         (reset st))))
      = sleeps (World.trace (world st)))
  /\ match (match connection with
            | None => LocalCommand_init (PyStr command) wd
            | Some c => RemoteCommand_init (Some c) command wd
            end) with
     | Val cmd =>
         exists w',
           run (S fuel) command connection wd check sie timeout elog pp 0 wait
               verbose w = Some (Exc e, w')
           /\ requests (World.trace w') = requests (World.trace w)
           /\ sleeps (World.trace w') = sleeps (World.trace w)
     | Exc e' =>
         run (S fuel) command connection wd check sie timeout elog pp 0 wait
             verbose w = Some (Exc e', w)
     end.
Proof.
  cbn zeta.
  assert (forall s,
            execute_repeat pp check sie verbose timeout elog 0 wait (S fuel) s
            = Some (Exc (mkExn RepeatedExecutionFailed
                           (nl ++ (exhausted_msg 0 ++ nl)) None),
                    logged verbose (exhausted_msg 0) (reset s))) as Hrun.
  { intros s. rewrite execute_repeat_start. cbn [repeat_loop Z.eqb].
    rewrite on_exhausted_raises. reflexivity. }
  assert (forall s,
            requests (World.trace (world (logged verbose (exhausted_msg 0)
                                                 (reset s))))
            = requests (World.trace (world s))
            /\ sleeps (World.trace (world (logged verbose (exhausted_msg 0)
                                                  (reset s))))
               = sleeps (World.trace (world s))) as Hsame.
  { intros s.
    destruct (logged_state verbose (exhausted_msg 0) (reset s))
      as (_ & _ & _ & _ & L5 & L6).
    cbn zeta in L5, L6. now rewrite L5, L6. }
  split.
  - split; [apply Hrun|apply Hsame].
  - unfold run.
    destruct (match connection with
              | Some c => RemoteCommand_init (Some c) command wd
              | None => LocalCommand_init (PyStr command) wd
              end) as [cmd|e']; [|reflexivity].
    cbn [Z.eqb]. rewrite Hrun.
    eexists. split; [reflexivity|]. apply (Hsame (mkState cmd w)).
Qed.

(** The retry loop with a negative count of attempts left never sees it
    reach zero. *)
Lemma loop_never_exhausts pp check sie verbose timeout elog attempts wait
    cmd o c0 :
  0 <= wait ->
  (forall i, fails_at pp check sie timeout elog cmd o c0 i = true) ->
  forall fuel al stime slept_time st j,
    al < 0 ->
    fresh (self st) = fresh cmd ->
    World.oracle (world st) = o ->
    World.calls (world st) = (c0 + j * step_of cmd)%nat ->
    repeat_loop pp check sie verbose timeout elog attempts wait fuel al stime
                slept_time st = None.
Proof.
  intros Hw Hfail.
  induction fuel as [|fuel IH]; intros al stime slept_time st j Hal Hs Ho Hc;
    [reflexivity|].
  destruct (fails_exn pp check sie timeout elog cmd o c0 j (Hfail j))
    as (e & Hout & _ & Hcls).
  assert (fst (execute pp check sie timeout elog st) = Exc e) as Hexec.
  { rewrite execute_frame. cbn [fst].
    rewrite (attempt_fresh _ _ _ _ _ _ cmd) by exact Hs.
    rewrite Ho, Hc. fold (outcome_at pp check sie timeout elog cmd o
                                     (c0 + j * step_of cmd)).
    rewrite outcome_at_step. exact Hout. }
  rewrite (loop_step_retry pp check sie verbose timeout elog attempts wait
             fuel al stime slept_time st e) by (assumption || lia).
  destruct (exec_state pp check sie timeout elog st)
    as (E1 & E2 & E3 & _). cbn zeta in E1, E2, E3.
  destruct (logged_state verbose (failed_msg attempts (al - 1) e stime)
              (snd (execute pp check sie timeout elog st)))
    as (L1 & L2 & L3 & _). cbn zeta in L1, L2, L3.
  apply (IH _ _ _ _ (S j)).
  - lia.
  - cbn [slept self]. congruence.
  - cbn [slept world World.emit World.oracle]. congruence.
  - cbn [slept world World.emit World.calls]. rewrite L3, E3, Hc.
    unfold step_of. rewrite (request_of_fresh _ _ None Hs). lia.
Qed.

(** X4: with a negative [attempts] the loop condition never becomes false:
    on a command whose every attempt fails, [execute_repeat] retries for
    ever, it neither returns nor raises, however long it is run. *)
Theorem execute_repeat_negative_attempts pp check sie verbose timeout elog
    attempts wait st :
  attempts < 0 -> 0 <= wait ->
  (forall i,
     fails_at pp check sie timeout elog (self st) (World.oracle (world st))
              (World.calls (world st)) i = true) ->
  forall fuel,
    execute_repeat pp check sie verbose timeout elog attempts wait fuel st
    = None.
Proof.
  intros Hn Hw Hfail fuel. rewrite execute_repeat_start.
  apply (loop_never_exhausts pp check sie verbose timeout elog attempts wait
           (self st) (World.oracle (world st)) (World.calls (world st)) Hw
           Hfail fuel attempts wait 0 (reset st) 0); try reflexivity.
  - exact Hn.
  - cbn. lia.
Qed.

Lemma execute_repeat_negative_attempts_witness :
  execute_repeat None true false false None None (-1) 0 1000
                 (mkState local_ls (World.init always_status_1)) = None.
Proof.
  apply (execute_repeat_negative_attempts None true false false None None
           (-1) 0 (mkState local_ls (World.init always_status_1))).
  - lia.
  - lia.
  - intros i. reflexivity.
Defined.

(** ** What [run] hands back *)





(** ** The errors of [execute] *)

Lemma log_lines_app a b :
  log_lines (a ++ b) = (log_lines a ++ log_lines b)%list.
Proof.
  induction a as [|[] a IH]; cbn; rewrite ?IH; reflexivity.
Qed.

(** X6: one [execute] call writes at most one line to the error logger: none
    without a logger, none when it returns, and otherwise only the text of the
    [FailedCommand] it raises.  Without a post-processor, every error raised
    on a command the world let run (to its end or to its timeout) is written
    there. *)
Theorem execute_error_log pp check sie timeout elog st :
  let out := execute pp check sie timeout elog st in
  exists new,
    log_lines (World.trace (world (snd out)))
    = (log_lines (World.trace (world st)) ++ new)%list
    /\ match elog, fst out with
       | Some lg, Exc e =>
           new = []
           \/ (new = [(lg, exn_str e)]
               /\ is_FailedCommand (exn_class e) = true)
       | _, _ => new = []
       end
    /\ forall q lg e,
         pp = None ->
         request_of (self st) timeout = Some q ->
         answered (World.oracle (world st) (World.calls (world st)) q) = true ->
         elog = Some lg -> fst out = Exc e ->
         new = [(lg, exn_str e)].
Proof.
  cbn zeta. rewrite execute_frame. cbn [fst snd world World.trace].
  rewrite log_lines_app. eexists. split; [reflexivity|].
  destruct st as [[c cm cn wd r0 rm] [o n tr]].
  unfold_exec. cbn [self world Cmd.cls Cmd.command Cmd.connection
                    Cmd.working_directory World.oracle World.calls].
  split.
  - destruct elog, check, sie, pp as [f|];
      repeat (cbn -[Z.eqb nonempty]; try break_match);
      try reflexivity; try (left; reflexivity);
      try (right; split; reflexivity).
  - intros q lg e -> Hq Hans -> .
    assert (exists raw, answered raw = true
                        /\ o n q = raw) as (raw & Hraw & Hanswer) by eauto.
    clear Hans.
    destruct c; [|destruct cn; [|discriminate]];
      inversion Hq; subst q; clear Hq; cbn -[Z.eqb nonempty];
      rewrite Hanswer;
      destruct raw; try discriminate;
      destruct check, sie;
      repeat (cbn -[Z.eqb nonempty] in *; try break_match);
      try discriminate; intros H; inversion H; subst; reflexivity.
Qed.

Lemma execute_error_log_witness :
  log_lines (World.trace (world (snd
     (execute None true false (Some 1) (Some (mkLogger "lore_log"))
              (mkState local_ls (World.init never_in_time))))))
  = [(mkLogger "lore_log", local_timeout_msg local_ls (Some 1))].
Proof.
  destruct (execute_error_log None true false (Some 1)
              (Some (mkLogger "lore_log"))
              (mkState local_ls (World.init never_in_time)))
    as (new & Hlog & _ & H).
  rewrite Hlog.
  change (new = [(mkLogger "lore_log", local_timeout_msg local_ls (Some 1))]).
  apply (H (Spawn (PyList [PyStr "ls"]) (Some ".") (Some 1))
           (mkLogger "lore_log")
           (mkExn CommandTimedOut (local_timeout_msg local_ls (Some 1))
                  (Some Result.empty)));
    reflexivity.
Defined.

(** X7: when the world lets the command run to its end, [execute] raises for
    one of three reasons only: a non-zero exit code under [check]
    ([NonZeroReturnCode]), else text on standard error under
    [stderr_is_error] ([Stderr]), else an error of the post-processor, which
    is passed on as it is.  The first two carry the complete result: standard
    output, standard error and exit code as the world gave them. *)
Theorem execute_error_carries_result pp check sie timeout elog st q out err
    rc e st' :
  request_of (self st) timeout = Some q ->
  World.oracle (world st) (World.calls (world st)) q = Completed out err rc ->
  execute pp check sie timeout elog st = (Exc e, st') ->
  (exn_class e = NonZeroReturnCode
   /\ exn_result e = Some (Result.completed out err rc)
   /\ exn_str e = nonzero_msg (self st) rc err
   /\ check = true /\ rc <> 0)
  \/ (exn_class e = Stderr
      /\ exn_result e = Some (Result.completed out err rc)
      /\ exn_str e = stderr_msg (self st) err
      /\ sie = true /\ err <> EmptyString /\ (check = true -> rc = 0))
  \/ (exists f, pp = Some f /\ f out = Exc e
                /\ (check = true -> rc = 0)
                /\ (sie = true -> err = EmptyString)).
Proof.
  destruct st as [[c cm cn wd r0 rm] [o n tr]].
  intros Hq Hraw.
  unfold request_of in Hq. cbn in Hq, Hraw.
  unfold execute, LocalCommand_execute, RemoteCommand_execute,
    process_output, keep_partial, FailedCommand, get_result, attr, perform,
    bind, ret, raise, get_self, modify_self, emit, lift, World.emit.
  destruct c; [|destruct cn; [|discriminate]];
    inversion Hq; subst q; clear Hq; cbn -[Z.eqb nonempty];
    rewrite Hraw; cbn -[Z.eqb nonempty];
    destruct check, sie, elog, pp as [f|];
    repeat (cbn -[Z.eqb nonempty]; try break_match);
    intros H; try discriminate; inversion H; subst; clear H.
  all: try (left; repeat split; try reflexivity;
            match goal with H : negb (_ =? 0) = true |- _ =>
              apply negb_true_iff, Z.eqb_neq in H; exact H end).
  all: try (right; left; repeat split; try reflexivity; try discriminate;
            try (match goal with H : nonempty ?x = true |- _ =>
                   destruct x; discriminate end);
            intros _;
            match goal with H : negb (_ =? 0) = false |- _ =>
              apply negb_false_iff, Z.eqb_eq in H; exact H end).
  all: try (right; right; eexists; split; [reflexivity|];
            split; [eassumption|]; split; intros E; try discriminate;
            try (match goal with H : negb (_ =? 0) = false |- _ =>
                   apply negb_false_iff, Z.eqb_eq in H; exact H end);
            try (match goal with H : nonempty ?x = false |- _ =>
                   now destruct x end)).
Qed.

Lemma execute_error_carries_result_witness :
  exists e st',
    execute None true true None None
            (mkState local_ls (World.init always_status_1)) = (Exc e, st')
    /\ exn_class e = NonZeroReturnCode
    /\ exn_result e = Some (Result.completed EmptyString "boom" 1).
Proof.
  destruct (execute None true true None None
                    (mkState local_ls (World.init always_status_1)))
    as [[r|e] st'] eqn:E; [discriminate|].
  exists e, st'. split; [reflexivity|].
  destruct (execute_error_carries_result None true true None None
              (mkState local_ls (World.init always_status_1))
              (Spawn (PyList [PyStr "ls"]) (Some ".") None)
              EmptyString "boom" 1 e st' eq_refl eq_refl E)
    as [H | [H | H]].
  - split; apply H.
  - destruct H as (_ & _ & _ & _ & _ & H). specialize (H eq_refl).
    discriminate.
  - destruct H as (f & H & _). discriminate.
Defined.

(** ** Printing a command *)

Lemma join_from_strs i l :
  join_from i (map PyStr l) = Val (String.concat " " l).
Proof.
  revert i. induction l as [|s l IH]; intros i; [reflexivity|].
  cbn [map join_from String.concat].
  rewrite IH. destruct l; reflexivity.
Qed.

Lemma run_plain_word s : forall tok q es ts,
  all_plain s = true ->
  Shlex.run (Shlex.mk Shlex.InWord tok q es ts) s
  = Shlex.mk Shlex.InWord (tok ++ s) q es ts.
Proof.
  induction s as [|c s IH]; intros tok q es ts H; cbn [Shlex.run].
  - now rewrite string_app_nil_r.
  - cbn in H. apply andb_prop in H as [Hc Hs].
    unfold is_plain in Hc. apply negb_true_iff in Hc.
    apply orb_false_elim in Hc as [Hc Hq].
    apply orb_false_elim in Hc as [Hw He].
    unfold Shlex.step.
    cbn [Shlex.state Shlex.token Shlex.quoted Shlex.escapedstate
         Shlex.tokens].
    rewrite Hw, He, Hq, IH by exact Hs.
    unfold Shlex.snoc. now rewrite string_app_assoc.
Qed.

Lemma split_plain_word w : plain_word w = true -> Shlex.split w = inr [w].
Proof.
  unfold plain_word. destruct w as [|c w]; [discriminate|].
  cbn [nonempty andb all_plain]. intros H.
  apply andb_prop in H as [Hc Hs].
  unfold is_plain in Hc. apply negb_true_iff in Hc.
  apply orb_false_elim in Hc as [Hc Hq].
  apply orb_false_elim in Hc as [Hw He].
  unfold Shlex.split, Shlex.init. cbn [Shlex.run]. unfold Shlex.step at 1.
  cbn [Shlex.state Shlex.token Shlex.quoted Shlex.escapedstate Shlex.tokens].
  rewrite Hw, He, Hq, run_plain_word by exact Hs.
  reflexivity.
Qed.

Lemma split_then_words a ts rest :
  Shlex.split a = inr ts ->
  Shlex.split (a ++ String " "%char rest)
  = match Shlex.split rest with
    | inr l => inr (ts ++ l)%list
    | inl e => inl e
    end.
Proof.
  intros H. unfold Shlex.split at 1.
  rewrite (split_then_blank a ts) by exact H.
  apply split_between.
Qed.

(** Joining plain words with blanks and splitting again gives the words. *)
Lemma split_concat_plain ws :
  forallb plain_word ws = true ->
  Shlex.split (String.concat " " ws) = inr ws.
Proof.
  induction ws as [|w ws IH]; intros H; [reflexivity|].
  cbn in H. apply andb_prop in H as [Hw Hws].
  cbn [String.concat]. destruct ws as [|w' ws].
  - now apply split_plain_word.
  - change (w ++ " " ++ String.concat " " (w' :: ws))
      with (w ++ String " "%char (String.concat " " (w' :: ws))).
    rewrite (split_then_words w [w]) by now apply split_plain_word.
    now rewrite IH.
Qed.

(** X8: [str] of a local command is its argument vector joined by blanks,
    which drops the quoting of the text it was built from; when that text is
    plain words separated by single blanks, [str] gives the text back. *)
Theorem str_of_local_command text wd cmd :
  LocalCommand_init (PyStr text) wd = Val cmd ->
  exists argv,
    Shlex.split text = inr argv
    /\ CommandBase_str cmd = Val (PyStr (String.concat " " argv))
    /\ (forall ws, forallb plain_word ws = true ->
                   text = String.concat " " ws ->
                   argv = ws /\ CommandBase_str cmd = Val (PyStr text)).
Proof.
  unfold LocalCommand_init. cbn.
  destruct (Shlex.split text) as [e|argv] eqn:E; cbn; intros H;
    inversion H; subst cmd; clear H.
  exists argv. split; [reflexivity|].
  unfold CommandBase_str, command_text. cbn. rewrite join_from_strs.
  split; [reflexivity|].
  intros ws Hws ->. rewrite split_concat_plain in E by exact Hws.
  inversion E; subst argv. now split.
Qed.

Lemma str_of_local_command_witness :
  CommandBase_str
    (Cmd.mk LocalCommand
            (PyList [PyStr "tar"; PyStr "-zcf"; PyStr "a.tar.gz"; PyStr "a"])
            None (Some ".") None EmptyString)
  = Val (PyStr "tar -zcf a.tar.gz a").
Proof.
  destruct (str_of_local_command "tar -zcf a.tar.gz a" (Some ".")
              (Cmd.mk LocalCommand
                 (PyList [PyStr "tar"; PyStr "-zcf"; PyStr "a.tar.gz";
                          PyStr "a"])
                 None (Some ".") None EmptyString) eq_refl)
    as (argv & _ & _ & H).
  apply (H ["tar"; "-zcf"; "a.tar.gz"; "a"]); reflexivity.
Defined.

(** X9: [repr] of a command that holds no connection raises [TypeError]: so
    it does for every local command.  For a remote command it gives the class,
    the command text as sent and the label of the connection. *)
Theorem repr_of_commands v wd cmd :
  LocalCommand_init v wd = Val cmd ->
  CommandBase_repr cmd
  = Exc (mkExn TypeError "bad operand type for unary +: 'str'" None)
  /\ forall c command wd',
       exists rcmd text,
         RemoteCommand_init (Some c) command wd' = Val rcmd
         /\ Cmd.command rcmd = PyStr text
         /\ CommandBase_repr rcmd
            = Val ("< <class 'lrcmd.remote.RemoteCommand'>: '" ++ text
                     ++ "', " ++ label c ++ " >").
Proof.
  intros Hinit. split.
  - revert Hinit. unfold LocalCommand_init. cbn.
    destruct v; try discriminate.
    destruct (Shlex.split s) as [e|argv]; cbn; intros H; inversion H; subst.
    unfold CommandBase_repr, command_text. cbn. now rewrite join_from_strs.
  - intros c command wd'. unfold RemoteCommand_init. cbn.
    destruct (truthy_dir wd'); eexists; eexists;
      (split; [reflexivity|]); (split; [reflexivity|]);
      unfold CommandBase_repr, command_text; cbn;
      rewrite !string_app_assoc; reflexivity.
Qed.

Lemma repr_of_commands_witness :
  CommandBase_repr local_ls
  = Exc (mkExn TypeError "bad operand type for unary +: 'str'" None)
  /\ CommandBase_repr remote_ls
     = Val "< <class 'lrcmd.remote.RemoteCommand'>: 'ls', user@login-node >".
Proof.
  destruct (repr_of_commands (PyStr "ls") (Some ".") local_ls eq_refl)
    as (H & _).
  split; [exact H|reflexivity].
Defined.

(** ** Post-processors *)

Lemma split_on_cons c s : exists h t, split_on c s = h :: t.
Proof.
  induction s as [|d s (h & t & IH)]; cbn; [eauto|].
  destruct (Ascii.eqb d c); [eauto|]. rewrite IH. eauto.
Qed.

Lemma concat_cons sep h x t :
  String.concat sep (h :: x :: t) = h ++ sep ++ String.concat sep (x :: t).
Proof. reflexivity. Qed.

(** Joining the pieces with the separator restores the text. *)
Lemma concat_split_on c s :
  String.concat (String c EmptyString) (split_on c s) = s.
Proof.
  induction s as [|d s IH]; [reflexivity|]. cbn [split_on].
  destruct (split_on_cons c s) as (h & t & E). rewrite E in *.
  destruct (Ascii.eqb d c) eqn:Ed.
  - apply Ascii.eqb_eq in Ed. subst d.
    rewrite concat_cons, IH. reflexivity.
  - destruct t as [|x t].
    + cbn in *. now rewrite IH.
    + rewrite concat_cons. rewrite concat_cons in IH.
      cbn [append] in IH |- *. now rewrite IH.
Qed.

(** No piece holds the separator. *)
Lemma split_on_free c s : Forall (fun l => has_char c l = false) (split_on c s).
Proof.
  induction s as [|d s IH]; cbn [split_on]; [repeat constructor|].
  destruct (Ascii.eqb d c) eqn:Ed; [constructor; [reflexivity|exact IH]|].
  destruct (split_on c s) as [|h t]; [repeat constructor; cbn|].
  - rewrite Ascii.eqb_sym, Ed. reflexivity.
  - inversion IH; subst. constructor; [|assumption].
    cbn. rewrite Ascii.eqb_sym, Ed. assumption.
Qed.

(** Splitting a text made of two parts and a separator between them. *)
Lemma split_on_app c a b :
  split_on c (a ++ String c b) = (split_on c a ++ split_on c b)%list.
Proof.
  induction a as [|d a IH]; cbn [append split_on].
  - now rewrite Ascii.eqb_refl.
  - rewrite IH. destruct (Ascii.eqb d c); [reflexivity|].
    destruct (split_on_cons c a) as (h & t & E). rewrite E. reflexivity.
Qed.

(** Splitting what was joined gives the pieces back. *)
Lemma split_on_concat c ls :
  ls <> [] -> Forall (fun l => has_char c l = false) ls ->
  split_on c (String.concat (String c EmptyString) ls) = ls.
Proof.
  assert (forall l, has_char c l = false -> split_on c l = [l]) as Hone.
  { induction l as [|d l IH]; [reflexivity|]. cbn.
    rewrite Ascii.eqb_sym.
    destruct (Ascii.eqb d c); [discriminate|]. intros H.
    now rewrite IH. }
  induction ls as [|l ls IH]; intros Hne Hfree; [congruence|].
  inversion Hfree; subst. destruct ls as [|x ls].
  - cbn. now apply Hone.
  - rewrite concat_cons.
    change (l ++ String c EmptyString ++ String.concat (String c EmptyString) (x :: ls))
      with (l ++ String c (String.concat (String c EmptyString) (x :: ls))).
    rewrite split_on_app, Hone, IH by (assumption || discriminate).
    reflexivity.
Qed.

(** X10: [list_of_lines] and joining with newlines are inverse to each other:
    the lines it gives are never none, hold no newline, and joined by
    newlines give the text back; and any such lines, joined, are given back.
    A text that ends in a newline has an empty last line. *)
Theorem list_of_lines_round_trip s :
  exists ls,
    list_of_lines s = Val (PyList (map PyStr ls))
    /\ ls <> []
    /\ Forall (fun l => has_char (ascii_of_nat 10) l = false) ls
    /\ String.concat nl ls = s
    /\ (forall ls',
          ls' <> [] ->
          Forall (fun l => has_char (ascii_of_nat 10) l = false) ls' ->
          list_of_lines (String.concat nl ls')
          = Val (PyList (map PyStr ls')))
    /\ list_of_lines (s ++ nl)
       = Val (PyList (map PyStr (ls ++ [EmptyString]))).
Proof.
  exists (split_on (ascii_of_nat 10) s). split; [reflexivity|].
  split; [|split; [|split; [|split]]].
  - destruct (split_on_cons (ascii_of_nat 10) s) as (h & t & ->).
    discriminate.
  - apply split_on_free.
  - apply concat_split_on.
  - intros ls' Hne Hfree. unfold list_of_lines, nl.
    now rewrite split_on_concat.
  - unfold list_of_lines, nl. now rewrite split_on_app.
Qed.

Lemma list_of_lines_round_trip_witness :
  list_of_lines ("hello world" ++ nl ++ nl ++ "how do you do?" ++ nl)
  = Val (PyList [PyStr "hello world"; PyStr EmptyString;
                 PyStr "how do you do?"; PyStr EmptyString]).
Proof.
  destruct (list_of_lines_round_trip EmptyString) as (ls & _ & _ & _ & _ & H & _).
  apply (H ["hello world"; EmptyString; "how do you do?"; EmptyString]).
  - discriminate.
  - repeat constructor.
Defined.

Lemma filter_nonempty_all ls :
  Forall (fun l => nonempty l = true) (filter nonempty ls).
Proof.
  induction ls as [|l ls IH]; cbn; [constructor|].
  destruct (nonempty l) eqn:E; [constructor|]; assumption.
Qed.

(** X11: [list_of_non_empty_lines] gives the lines of [list_of_lines] that are
    not empty, in their order; the lines of two texts put one after the other
    are the lines of the first followed by those of the second, so that a
    blank line between them, a newline at the end or one at the start changes
    nothing. *)
Theorem list_of_non_empty_lines_skips_blank_lines a b :
  exists la lb,
    list_of_non_empty_lines a = Val (PyList (map PyStr la))
    /\ list_of_non_empty_lines b = Val (PyList (map PyStr lb))
    /\ Forall (fun l => nonempty l = true) la
    /\ list_of_non_empty_lines (a ++ nl ++ b)
       = Val (PyList (map PyStr (la ++ lb)))
    /\ list_of_non_empty_lines (a ++ nl ++ nl ++ b)
       = Val (PyList (map PyStr (la ++ lb)))
    /\ list_of_non_empty_lines (a ++ nl) = list_of_non_empty_lines a
    /\ list_of_non_empty_lines (nl ++ a) = list_of_non_empty_lines a
    /\ (forall ls, list_of_lines a = Val (PyList (map PyStr ls)) ->
                   la = filter nonempty ls).
Proof.
  exists (filter nonempty (split_on (ascii_of_nat 10) a)),
         (filter nonempty (split_on (ascii_of_nat 10) b)).
  unfold list_of_non_empty_lines, list_of_lines, nl.
  split; [reflexivity|]. split; [reflexivity|].
  split; [apply filter_nonempty_all|].
  split; [|split; [|split; [|split]]].
  - cbn [append]. now rewrite split_on_app, filter_app.
  - cbn [append].
    change (String (ascii_of_nat 10) (String (ascii_of_nat 10) b))
      with (String (ascii_of_nat 10) (EmptyString ++ String (ascii_of_nat 10) b)).
    now rewrite split_on_app, split_on_app, !filter_app.
  - rewrite split_on_app, filter_app. cbn. now rewrite app_nil_r.
  - cbn [append split_on]. rewrite Ascii.eqb_refl. reflexivity.
  - intros ls H. inversion H as [Hmap].
    apply (f_equal (map (fun v => match v with PyStr s => s | _ => EmptyString end)))
      in Hmap.
    rewrite !map_map, !map_id in Hmap. now subst ls.
Qed.

(** * The command wrappers *)

(** What [run(cmd, connection)] does with the world's answer. *)
Lemma run1_request cmd connection pp w q :
  request_for connection cmd = Val q ->
  exists r,
    Commands.run1 cmd connection pp w = Some (r, asked q w)
    /\ match answer w q with
       | Completed out err rc =>
           if rc =? 0 then
             r = match pp with
                 | None => Val (Result.completed out err rc)
                 | Some f =>
                     match f out with
                     | Val v =>
                         Val (Result.set_processed v
                                (Result.completed out err rc))
                     | Exc e => Exc e
                     end
                 end
           else exists e, r = Exc e
                          /\ exn_class e = NonZeroReturnCode
                          /\ exn_result e = Some (Result.completed out err rc)
       | TimedOut _ =>
           exists e, r = Exc e /\ exn_class e = CommandTimedOut
       | Raised e _ => r = Exc e
       end.
Proof.
  unfold request_for, answer, asked, Commands.run1, run.
  destruct connection as [c|].
  - intros H. inversion H; subst q; clear H.
    cbn. unfold_exec. cbn.
    destruct (World.oracle w (World.calls w) _) as [out err rc|p|e p] eqn:E.
    + cbn. destruct (rc =? 0) eqn:Hrc; cbn.
      * destruct pp as [f|]; cbn.
        -- destruct (f out); cbn; eexists; split; reflexivity.
        -- eexists; split; reflexivity.
      * eexists; split; [reflexivity|]. eexists. split; [reflexivity|].
        split; reflexivity.
    + destruct p; cbn; eexists; (split; [reflexivity|]); eexists; split;
        reflexivity.
    + destruct p; cbn; eexists; split; reflexivity.
  - unfold LocalCommand_init. cbn.
    destruct (Shlex.split cmd) as [e|argv]; [discriminate|].
    intros H. inversion H; subst q; clear H.
    cbn. unfold_exec. cbn.
    destruct (World.oracle w (World.calls w) _) as [out err rc|p|e p] eqn:E.
    + cbn. destruct (rc =? 0) eqn:Hrc; cbn.
      * destruct pp as [f|]; cbn.
        -- destruct (f out); cbn; eexists; split; reflexivity.
        -- eexists; split; reflexivity.
      * eexists; split; [reflexivity|]. eexists. split; [reflexivity|].
        split; reflexivity.
    + cbn; eexists; (split; [reflexivity|]); eexists; split;
        reflexivity.
    + cbn; eexists; split; reflexivity.
Qed.

(** A local command whose text cannot be split is never run. *)
Lemma run1_unparsed cmd pp w e :
  request_for None cmd = Exc e ->
  Commands.run1 cmd None pp w = Some (Exc e, w).
Proof.
  unfold request_for, Commands.run1, run, LocalCommand_init. cbn.
  destruct (Shlex.split cmd); [|discriminate].
  intros H. now inversion H.
Qed.

Lemma exists_call os p connection operator w :
  connection <> None \/ operator <> None ->
  Commands.exists_ os p connection operator w
  = match Commands.run1 (test_command operator p) connection None w with
    | Some (Val _, w') => Some (Val true, w')
    | Some (Exc e, w') =>
        match exn_class e with
        | NonZeroReturnCode => Some (Val false, w')
        | _ => Some (Exc e, w')
        end
    | None => None
    end.
Proof.
  intros Hrun. unfold Commands.exists_, test_command.
  destruct operator as [op|]; [reflexivity|].
  destruct connection as [c|]; [reflexivity|].
  destruct Hrun as [H|H]; now elim H.
Qed.

Lemma glob_call fnmatch pattern path connection w :
  Commands.glob fnmatch pattern path connection w
  = match Commands.run1 ("find " ++ path ++ " -maxdepth 1 -type f")
                        connection (Some list_of_lines) w with
    | Some (Val result, w') =>
        match Result.processed result with
        | Some (PyList files) =>
            Some (Commands.matching fnmatch pattern files, w')
        | Some v =>
            Some (Exc (mkExn TypeError
                         ("'" ++ py_type_name v ++ "' object is not iterable")
                         None), w')
        | None =>
            Some (Exc (attribute_error "types.SimpleNamespace" "processed"),
                  w')
        end
    | Some (Exc e, w') => Some (Exc e, w')
    | None => None
    end.
Proof. reflexivity. Qed.

(** Words around a text that lexes well. *)
Lemma split_framed a b ws bs mid :
  plain_word a = true ->
  Shlex.split mid = inr ws ->
  Shlex.split b = inr bs ->
  Shlex.split (a ++ " " ++ mid ++ " " ++ b) = inr (a :: ws ++ bs)%list.
Proof.
  intros Ha Hmid Hb.
  change (a ++ " " ++ mid ++ " " ++ b)
    with (a ++ String " "%char (mid ++ String " "%char b)).
  rewrite (split_then_words a [a]) by now apply split_plain_word.
  rewrite (split_then_words mid ws) by exact Hmid.
  now rewrite Hb.
Qed.

(** Inside quotes that are never closed the lexer stays inside them. *)
Lemma run_open_quote q s : forall tok b es ts,
  all_plain_in q s = true ->
  Shlex.state (Shlex.run (Shlex.mk (Shlex.InQuote q) tok b es ts) s)
  = Shlex.InQuote q.
Proof.
  induction s as [|c s IH]; intros tok b es ts H; [reflexivity|].
  cbn in H. apply andb_prop in H as [Hc Hs].
  unfold plain_in in Hc. apply andb_prop in Hc as [Hc1 Hc2].
  cbn [Shlex.run]. unfold Shlex.step at 1.
  cbn [Shlex.state Shlex.token Shlex.quoted Shlex.escapedstate Shlex.tokens].
  apply negb_true_iff in Hc1, Hc2. rewrite Hc1, Hc2.
  now apply IH.
Qed.

Lemma all_plain_in_app q a b :
  all_plain_in q (a ++ b) = (all_plain_in q a && all_plain_in q b)%bool.
Proof.
  induction a as [|c a IH]; [reflexivity|].
  cbn. rewrite IH. now rewrite andb_assoc.
Qed.

(** A lone apostrophe in a word opens a quotation that nothing closes. *)
Lemma split_open_quote ts a b :
  all_plain a = true ->
  all_plain_in "'"%char b = true ->
  Shlex.finish (Shlex.run (between_tokens ts) (a ++ String "'"%char b))
  = inl (mkExn ValueError "No closing quotation" None).
Proof.
  intros Ha Hb.
  assert (Hst : Shlex.state
                  (Shlex.run (between_tokens ts) (a ++ String "'"%char b))
                = Shlex.InQuote "'"%char).
  { unfold between_tokens. destruct a as [|c a].
    - cbn [append Shlex.run]. unfold Shlex.step at 1. cbn.
      now apply run_open_quote.
    - cbn in Ha. apply andb_prop in Ha as [Hc Ha].
      unfold is_plain in Hc. apply negb_true_iff in Hc.
      apply orb_false_elim in Hc as [Hc Hq].
      apply orb_false_elim in Hc as [Hw He].
      cbn [append Shlex.run]. unfold Shlex.step at 1.
      cbn [Shlex.state Shlex.token Shlex.quoted Shlex.escapedstate
           Shlex.tokens].
      rewrite Hw, He, Hq, run_app, run_plain_word by exact Ha.
      cbn [Shlex.run]. unfold Shlex.step at 1. cbn.
      now apply run_open_quote. }
  unfold Shlex.finish. now rewrite Hst.
Qed.

Lemma split_word_open_quote w a b rest :
  plain_word w = true ->
  all_plain a = true ->
  all_plain_in "'"%char (b ++ rest) = true ->
  Shlex.split (w ++ " " ++ (a ++ "'" ++ b) ++ rest)
  = inl (mkExn ValueError "No closing quotation" None).
Proof.
  intros Hw Ha Hb.
  change (w ++ " " ++ (a ++ "'" ++ b) ++ rest)
    with (w ++ String " "%char ((a ++ String "'"%char b) ++ rest)).
  unfold Shlex.split.
  rewrite (split_then_blank w [w]) by now apply split_plain_word.
  rewrite string_app_assoc. cbn [append].
  now apply split_open_quote.
Qed.

(** X12: locally, [env] never raises for a name that is not empty: it gives
    the value of the variable, or the empty string when the variable is not
    set, and asks nothing of the world; a leading dollar sign is optional; the
    name ["$"] alone is looked up as the empty name; the empty name raises
    [IndexError]. *)
Theorem env_local os name w (Hname : bare_name name = true) :
  Commands.env os name None w
  = Some (Val match environ_get (environ os) name with
              | Some v => v
              | None => EmptyString
              end, w)
  /\ Commands.env os (String "$" name) None w = Commands.env os name None w
  /\ Commands.env os "$" None w
     = Some (Val match environ_get (environ os) EmptyString with
                 | Some v => v
                 | None => EmptyString
                 end, w)
  /\ Commands.env os EmptyString None w = Some (Exc Commands.index_error, w).
Proof.
  destruct name as [|ch rest]; [discriminate|].
  cbn in Hname. unfold Commands.env.
  repeat split.
  - rewrite (proj1 (negb_true_iff _) Hname).
    now destruct (environ_get _ _).
  - cbn. rewrite (proj1 (negb_true_iff _) Hname). reflexivity.
  - cbn. now destruct (environ_get _ _).
Qed.

Lemma env_local_witness :
  let w := World.init greeting in
  Commands.env bare_machine "HOME" None w = Some (Val "/home/me", w)
  /\ Commands.env bare_machine "$HOME" None w = Some (Val "/home/me", w)
  /\ Commands.env bare_machine "SHELL" None w = Some (Val EmptyString, w).
Proof.
  intros w.
  pose proof (env_local bare_machine "HOME" w eq_refl) as (H1 & H2 & _).
  pose proof (env_local bare_machine "SHELL" w eq_refl) as (H3 & _).
  split; [|split].
  - exact H1.
  - rewrite H2. exact H1.
  - exact H3.
Defined.

Lemma drop_last_snoc v ch : drop_last (v ++ String ch EmptyString) = v.
Proof.
  induction v as [|c v IH]; [reflexivity|].
  cbn [append drop_last]. rewrite IH.
  destruct v; reflexivity.
Qed.

(** X13: remotely, [env] makes one request, [echo $NAME] in the remote home
    directory, whether or not the name was given with its dollar sign; when
    the command exits with 0 the value is its standard output less the last
    character, whatever that character is, and the empty string when there
    was no output; a non-zero exit code raises [NonZeroReturnCode]. *)
Theorem env_remote os name c w (Hname : bare_name name = true) :
  let q := ExecCommand c (PyStr ("cd . && echo $" ++ name)) None in
  Commands.env os (String "$" name) (Some c) w
  = Commands.env os name (Some c) w
  /\ exists r,
       Commands.env os name (Some c) w = Some (r, asked q w)
       /\ (forall v ch err,
              answer w q = Completed (v ++ String ch EmptyString) err 0 ->
              r = Val v)
       /\ (forall err, answer w q = Completed EmptyString err 0 ->
                       r = Val EmptyString)
       /\ (forall out err rc,
              answer w q = Completed out err rc -> rc <> 0 ->
              exists e, r = Exc e /\ exn_class e = NonZeroReturnCode).
Proof.
  intros q. destruct name as [|ch rest]; [discriminate|].
  cbn in Hname. apply negb_true_iff in Hname.
  split.
  - unfold Commands.env. cbn. rewrite Hname. reflexivity.
  - unfold Commands.env. rewrite Hname.
    destruct (run1_request ("echo $" ++ String ch rest) (Some c) None w q
                eq_refl) as (r & Hr & Ha).
    rewrite Hr.
    destruct (answer w q) as [out err rc|p|e p] eqn:E.
    + destruct (rc =? 0) eqn:Hrc.
      * subst r. cbn. eexists. split; [reflexivity|].
        apply Z.eqb_eq in Hrc. subst rc.
        repeat split.
        -- intros v ch' err' H. inversion H. now rewrite drop_last_snoc.
        -- intros err' H. now inversion H.
        -- intros out' err' rc' H Hne. inversion H. congruence.
      * destruct Ha as (e & -> & Hc & _). eexists. split; [reflexivity|].
        repeat split.
        -- intros v ch' err' H. inversion H. subst. discriminate.
        -- intros err' H. inversion H. subst. discriminate.
        -- intros. now exists e.
    + destruct Ha as (e & -> & Hc). eexists. split; [reflexivity|].
      repeat split; intros; discriminate.
    + subst r. eexists. split; [reflexivity|].
      repeat split; intros; discriminate.
Qed.

Lemma env_remote_witness :
  let w := World.init greeting in
  let q := ExecCommand login (PyStr "cd . && echo $HOME") None in
  Commands.env bare_machine "$HOME" (Some login) w
  = Some (Val "hello world", asked q w).
Proof.
  intros w q.
  destruct (env_remote bare_machine "HOME" login w eq_refl)
    as (H1 & r & H2 & H3 & _).
  rewrite H1, H2.
  now rewrite (H3 "hello world" (ascii_of_nat 10) EmptyString eq_refl).
Defined.

(** X14: with a connection or an operator, [exists] runs one test command
    and answers by its exit code: [True] for 0, [False] for any other code
    (the [NonZeroReturnCode] is swallowed); a command that times out raises
    [CommandTimedOut] instead of answering. *)
Theorem exists_by_exit_code os p connection operator w q
    (Hrun : connection <> None \/ operator <> None)
    (Hq : request_for connection (test_command operator p) = Val q) :
  exists r,
    Commands.exists_ os p connection operator w = Some (r, asked q w)
    /\ (forall out err rc,
           answer w q = Completed out err rc -> r = Val (rc =? 0))
    /\ (forall partial,
           answer w q = TimedOut partial ->
           exists e, r = Exc e /\ exn_class e = CommandTimedOut).
Proof.
  destruct (run1_request _ connection None w q Hq) as (r & Hr & Ha).
  rewrite exists_call, Hr by exact Hrun. clear Hr.
  destruct (answer w q) as [out err rc|pt|e pt].
  - destruct (rc =? 0) eqn:Hrc.
    + subst r. eexists. split; [reflexivity|].
      split; intros; [|discriminate].
      inversion H. subst. now rewrite Hrc.
    + destruct Ha as (e & -> & Hc & _). rewrite Hc.
      eexists. split; [reflexivity|].
      split; intros; [|discriminate].
      inversion H. subst. now rewrite Hrc.
  - destruct Ha as (e & -> & Hc). rewrite Hc.
    eexists. split; [reflexivity|].
    split; intros; [discriminate|]. now exists e.
  - subst r. destruct (exn_class e) eqn:Hc;
      (eexists; split; [reflexivity|]; split; intros; discriminate).
Qed.

Lemma exists_by_exit_code_witness :
  let q := ExecCommand login (PyStr "cd . && [ -d data ]") None in
  Commands.exists_ bare_machine "data" (Some login) (Some "-d")
                   (World.init always_status_1)
  = Some (Val false, asked q (World.init always_status_1)).
Proof.
  intros q.
  destruct (exists_by_exit_code bare_machine "data" (Some login) (Some "-d")
              (World.init always_status_1) q
              ltac:(left; discriminate)
              eq_refl)
    as (r & H & Hr & _).
  rewrite H. now rewrite (Hr EmptyString "boom" 1 eq_refl).
Defined.

(** X15: a local wrapper puts the path into the command text as it stands
    and the lexer cuts it at blanks: for a path made of plain words separated
    by single blanks, each word is an argument of its own in the argument
    vector that [exists] (with an operator) and [glob] spawn. *)
Theorem local_paths_cut_at_blanks os fnmatch pattern op ws w
    (Hop : plain_word op = true) (Hws : forallb plain_word ws = true) :
  let p := String.concat " " ws in
  let argv l := Spawn (PyList (map PyStr l)) (Some ".") None in
  (exists r,
     Commands.exists_ os p None (Some op) w
     = Some (r, asked (argv ("[" :: op :: ws ++ ["]"])%list) w))
  /\ (exists r,
        Commands.glob fnmatch pattern p None w
        = Some (r, asked (argv ("find" :: ws
                                  ++ ["-maxdepth"; "1"; "-type"; "f"])%list)
                         w)).
Proof.
  intros p argv. split.
  - rewrite exists_call by (right; discriminate).
    assert (Hq : request_for None (test_command (Some op) p)
                 = Val (argv ("[" :: op :: ws ++ ["]"])%list)).
    { unfold request_for, test_command.
      change ("[ " ++ op ++ " " ++ p ++ " ]")
        with ("[" ++ String " "%char (op ++ " " ++ p ++ " " ++ "]")).
      rewrite (split_then_words "[" ["["]) by reflexivity.
      rewrite (split_framed op "]" ws ["]"] p Hop) by
        (try reflexivity; now apply split_concat_plain).
      reflexivity. }
    destruct (run1_request _ None None w _ Hq) as (r & Hr & _).
    rewrite Hr. destruct r as [v|e]; [now eexists|].
    destruct (exn_class e); now eexists.
  - rewrite glob_call.
    assert (Hq : request_for None ("find " ++ p ++ " -maxdepth 1 -type f")
                 = Val (argv ("find" :: ws
                                ++ ["-maxdepth"; "1"; "-type"; "f"])%list)).
    { unfold request_for.
      change ("find " ++ p ++ " -maxdepth 1 -type f")
        with ("find" ++ " " ++ p ++ " " ++ "-maxdepth 1 -type f").
      rewrite (split_framed "find" "-maxdepth 1 -type f" ws
                 ["-maxdepth"; "1"; "-type"; "f"] p) by
        (try reflexivity; now apply split_concat_plain).
      reflexivity. }
    destruct (run1_request _ None (Some list_of_lines) w _ Hq)
      as (r & Hr & _).
    rewrite Hr. destruct r as [v|e]; [|now eexists].
    destruct (Result.processed v) as [[]|]; now eexists.
Qed.

Lemma local_paths_cut_at_blanks_witness :
  let w := World.init greeting in
  exists r,
    Commands.exists_ bare_machine "my data" None (Some "-d") w
    = Some (r, asked (Spawn (PyList [PyStr "["; PyStr "-d"; PyStr "my";
                                     PyStr "data"; PyStr "]"])
                            (Some ".") None) w).
Proof.
  intros w.
  exact (proj1 (local_paths_cut_at_blanks bare_machine (fun _ _ => true)
                  "*" "-d" ["my"; "data"] w eq_refl eq_refl)).
Defined.

(** X16: a local path with a lone apostrophe cannot be put into a command:
    [exists] with an operator and [glob] raise [ValueError] (no closing
    quotation) and run nothing, whereas [exists] without an operator asks
    [os.path.exists] and answers. *)
Theorem apostrophe_in_local_path os fnmatch pattern op a b w
    (Hop : plain_word op = true) (Ha : all_plain a = true)
    (Hb : all_plain_in "'"%char b = true) :
  let p := a ++ "'" ++ b in
  let e := mkExn ValueError "No closing quotation" None in
  Commands.exists_ os p None (Some op) w = Some (Exc e, w)
  /\ Commands.glob fnmatch pattern p None w = Some (Exc e, w)
  /\ Commands.exists_ os p None None w = Some (Val (os_path_exists os p), w).
Proof.
  intros p e. split; [|split; [|reflexivity]].
  - rewrite exists_call by (right; discriminate).
    rewrite (run1_unparsed _ None w e); [reflexivity|].
    unfold request_for, test_command.
    change ("[ " ++ op ++ " " ++ p ++ " ]")
      with ("[" ++ String " "%char (op ++ " " ++ (a ++ "'" ++ b) ++ " ]")).
    rewrite (split_then_words "[" ["["]) by reflexivity.
    rewrite split_word_open_quote; try assumption; [reflexivity|].
    rewrite all_plain_in_app, Hb. reflexivity.
  - rewrite glob_call.
    rewrite (run1_unparsed _ (Some list_of_lines) w e); [reflexivity|].
    unfold request_for.
    change ("find " ++ p ++ " -maxdepth 1 -type f")
      with ("find" ++ " " ++ (a ++ "'" ++ b) ++ " -maxdepth 1 -type f").
    rewrite split_word_open_quote; try assumption; [reflexivity..|].
    rewrite all_plain_in_app, Hb. reflexivity.
Qed.

Lemma apostrophe_in_local_path_witness :
  Commands.exists_ bare_machine "it's" None (Some "-f") (World.init greeting)
  = Some (Exc (mkExn ValueError "No closing quotation" None),
          World.init greeting).
Proof.
  exact (proj1 (apostrophe_in_local_path bare_machine (fun _ _ => true) "*"
                  "-f" "it" "s" (World.init greeting)
                  eq_refl eq_refl eq_refl)).
Defined.

(** X17: a remote [touch] first makes the directory and then touches the
    file, at [os.path.join(path, file)]; when [mkdir -p] exits with a non-zero
    code the [NonZeroReturnCode] is raised and no second request is made;
    otherwise the outcome is that of the [touch] command, which is answered as
    the next request. *)
Theorem touch_remote os file path c w out err rc :
  let q1 := ExecCommand c (PyStr ("cd . && mkdir -p " ++ path)) None in
  let q2 := ExecCommand c (PyStr ("cd . && touch "
                                    ++ os_path_join path [file])) None in
  answer w q1 = Completed out err rc ->
  if rc =? 0 then
    exists r,
      Commands.touch os file path (Some c) w = Some (r, asked q2 (asked q1 w))
      /\ (forall out2 err2 rc2,
             answer (asked q1 w) q2 = Completed out2 err2 rc2 ->
             if rc2 =? 0 then r = Val tt
             else exists e, r = Exc e /\ exn_class e = NonZeroReturnCode)
  else
    exists e,
      Commands.touch os file path (Some c) w = Some (Exc e, asked q1 w)
      /\ exn_class e = NonZeroReturnCode
      /\ exn_result e = Some (Result.completed out err rc).
Proof.
  intros q1 q2 H1. unfold Commands.touch, Commands.ensure_dir.
  destruct (run1_request ("mkdir -p " ++ path) (Some c) None w q1 eq_refl)
    as (r1 & Hr1 & Ha1).
  rewrite Hr1, H1 in *.
  destruct (rc =? 0).
  - subst r1.
    destruct (run1_request ("touch " ++ os_path_join path [file]) (Some c)
                None (asked q1 w) q2 eq_refl) as (r2 & Hr2 & Ha2).
    rewrite Hr2.
    exists (match r2 with Val _ => Val tt | Exc e => Exc e end).
    split; [now destruct r2|].
    intros out2 err2 rc2 H2. rewrite H2 in Ha2.
    destruct (rc2 =? 0).
    + now subst r2.
    + destruct Ha2 as (e & -> & Hc & _). now exists e.
  - destruct Ha1 as (e & -> & Hc & Hres). now exists e.
Qed.

Lemma touch_remote_witness :
  let w := World.init greeting in
  let q1 := ExecCommand login (PyStr "cd . && mkdir -p logs") None in
  let q2 := ExecCommand login (PyStr "cd . && touch logs/run.log") None in
  Commands.touch bare_machine "run.log" "logs" (Some login) w
  = Some (Val tt, asked q2 (asked q1 w)).
Proof.
  intros w q1 q2.
  destruct (touch_remote bare_machine "run.log" "logs" login w
              ("hello world" ++ nl) EmptyString 0 eq_refl)
    as (r & H & Hr).
  rewrite H.
  now rewrite (Hr ("hello world" ++ nl) EmptyString 0 eq_refl).
Defined.

Lemma basename_no_slash p : has_char "/"%char (os_path_basename p) = false.
Proof.
  induction p as [|c p IH]; [reflexivity|].
  cbn [os_path_basename].
  destruct (has_char "/"%char p) eqn:E; [exact IH|].
  destruct (Ascii.eqb c "/"%char) eqn:Ec; [exact E|].
  cbn [has_char]. rewrite Ascii.eqb_sym, Ec, E. reflexivity.
Qed.

Lemma matching_strs fnmatch pattern l :
  Commands.matching fnmatch pattern (map PyStr l)
  = Val (filter (fun n => fnmatch n pattern) (map os_path_basename l)).
Proof.
  induction l as [|s l IH]; [reflexivity|].
  cbn [map Commands.matching filter]. rewrite IH.
  now destruct (fnmatch _ _).
Qed.

(** X18: when [find] exits with 0, [glob] returns, in order, the base names
    of the lines of its output that match the pattern: no name holds a slash,
    every name matches; as the output ends with a newline, its last line is
    empty, and the empty name is returned as a file whenever the pattern
    matches it. *)
Theorem glob_names fnmatch pattern path connection w q out err
    (Hq : request_for connection ("find " ++ path ++ " -maxdepth 1 -type f")
          = Val q)
    (Ha : answer w q = Completed out err 0) :
  exists names,
    Commands.glob fnmatch pattern path connection w
    = Some (Val names, asked q w)
    /\ names = filter (fun n => fnmatch n pattern)
                      (map os_path_basename (split_on (ascii_of_nat 10) out))
    /\ (forall n, In n names ->
                  has_char "/"%char n = false /\ fnmatch n pattern = true)
    /\ (forall body, out = body ++ nl -> fnmatch EmptyString pattern = true ->
                     In EmptyString names).
Proof.
  rewrite glob_call.
  destruct (run1_request _ connection (Some list_of_lines) w q Hq)
    as (r & Hr & Hans).
  rewrite Hr, Ha in *. cbn in Hans. subst r. cbn.
  rewrite matching_strs.
  eexists. split; [reflexivity|]. split; [reflexivity|]. split.
  - intros n Hn. apply filter_In in Hn as [Hn Hm]. split; [|exact Hm].
    apply in_map_iff in Hn as (s & <- & _). apply basename_no_slash.
  - intros body -> Hm. apply filter_In. split; [|exact Hm].
    apply in_map_iff. exists EmptyString. split; [reflexivity|].
    unfold nl. rewrite split_on_app. apply in_or_app. right. now left.
Qed.

Lemma glob_names_witness :
  let w := World.init two_files in
  let q := ExecCommand login
             (PyStr "cd . && find . -maxdepth 1 -type f") None in
  Commands.glob (fun _ _ => true) "*" "." (Some login) w
  = Some (Val ["a.txt"; "b.log"; EmptyString], asked q w).
Proof.
  intros w q.
  destruct (glob_names (fun _ _ => true) "*" "." (Some login) w q
              ("./a.txt" ++ nl ++ "./b.log" ++ nl) EmptyString
              eq_refl eq_refl) as (names & H & -> & _).
  exact H.
Defined.

(** X19: the remote [remove], [rename] and [ensure_dir] each make exactly one
    request, the command run from the remote home directory with the paths
    as given; they return (for [ensure_dir]: the path) when it exits with 0,
    and raise [NonZeroReturnCode] carrying the result otherwise. *)
Theorem remote_wrappers os c w :
  let ask text := ExecCommand c (PyStr ("cd . && " ++ text)) None in
  let outcome {A} (q : Request) (v : A) (r : Res A) :=
    forall out err rc,
      answer w q = Completed out err rc ->
      if rc =? 0 then r = Val v
      else exists e, r = Exc e
                     /\ exn_class e = NonZeroReturnCode
                     /\ exn_result e = Some (Result.completed out err rc) in
  (forall p,
      exists r, Commands.remove os p (Some c) w
                = Some (r, asked (ask ("rm -rf " ++ p)) w)
                /\ outcome (ask ("rm -rf " ++ p)) tt r)
  /\ (forall src dst,
         exists r, Commands.rename os src dst (Some c) w
                   = Some (r, asked (ask ("mv " ++ src ++ " " ++ dst)) w)
                   /\ outcome (ask ("mv " ++ src ++ " " ++ dst)) tt r)
  /\ (forall p,
         exists r, Commands.ensure_dir os (Commands.Path p) (Some c) w
                   = Some (r, asked (ask ("mkdir -p " ++ p)) w)
                   /\ outcome (ask ("mkdir -p " ++ p)) p r).
Proof.
  intros ask outcome.
  assert (Hgen : forall A (v : A) text,
    exists r,
      match Commands.run1 text (Some c) None w with
      | Some (Val _, w') => Some (Val v, w')
      | Some (Exc e, w') => Some (Exc e, w')
      | None => None
      end = Some (r, asked (ask text) w)
      /\ outcome A (ask text) v r).
  { intros A v text.
    destruct (run1_request text (Some c) None w (ask text) eq_refl)
      as (r & Hr & Ha).
    rewrite Hr.
    exists (match r with Val _ => Val v | Exc e => Exc e end).
    split; [now destruct r|].
    intros out err rc H. rewrite H in Ha.
    destruct (rc =? 0); [now subst r|].
    destruct Ha as (e & -> & Hc & Hres). now exists e. }
  split; [|split].
  - intros p. apply (Hgen unit tt).
  - intros src dst. apply (Hgen unit tt).
  - intros p. apply (Hgen string p).
Qed.

(** X20: once the file is copied, [copy_remote_to_local] does nothing more
    for [rename=False]; for a string it makes one request, without change of
    directory, [rm -f] of the source for the empty string and [mv] otherwise,
    and raises [NonZeroReturnCode] when that exits with a non-zero code; for
    any other value ([True], [None], a number, a list) it raises [ValueError],
    after the copy. *)
Theorem copy_remote_to_local_rename sftp_get c dst src rename w
    (Hcopied : sftp_get src dst = None) :
  match rename with
  | PyBool false =>
      copy_remote_to_local sftp_get c dst src rename w = (Val tt, w)
  | PyStr name =>
      let q := ExecCommand c
                 (PyStr (if nonempty name then "mv " ++ src ++ " " ++ name
                         else "rm -f " ++ src)) None in
      exists r,
        copy_remote_to_local sftp_get c dst src rename w = (r, asked q w)
        /\ forall out err rc,
             answer w q = Completed out err rc ->
             if rc =? 0 then r = Val tt
             else exists e, r = Exc e /\ exn_class e = NonZeroReturnCode
  | _ =>
      exists e,
        copy_remote_to_local sftp_get c dst src rename w = (Exc e, w)
        /\ exn_class e = ValueError
        /\ exn_str e = "kwarg 'rename' must be str or False, got '"
                         ++ py_str rename ++ "'."
  end.
Proof.
  unfold copy_remote_to_local. rewrite Hcopied.
  destruct rename as [|[|]|z|name|l];
    try reflexivity; try (eexists; repeat split; fail).
  unfold RemoteCommand_init, answer, asked. unfold_exec. cbn.
  match goal with
  | |- context [World.oracle w (World.calls w) ?q] =>
      destruct (World.oracle w (World.calls w) q) as [out err rc|p|e p]
  end.
  - cbn. destruct (rc =? 0) eqn:Hrc; cbn.
    + eexists. split; [reflexivity|]. intros ? ? ? H. inversion H; subst.
      now rewrite Hrc.
    + eexists. split; [reflexivity|]. intros ? ? ? H. inversion H; subst.
      rewrite Hrc. eexists. split; reflexivity.
  - destruct p; cbn; eexists; (split; [reflexivity|]); intros; discriminate.
  - destruct p; cbn; eexists; (split; [reflexivity|]); intros; discriminate.
Qed.

Lemma copy_remote_to_local_rename_witness :
  let w := World.init greeting in
  copy_remote_to_local sftp_ok login "out.txt" "job/out.txt" (PyBool false) w
  = (Val tt, w)
  /\ exists e,
       copy_remote_to_local sftp_ok login "out.txt" "job/out.txt"
                            (PyBool true) w = (Exc e, w)
       /\ exn_class e = ValueError
       /\ exn_str e = "kwarg 'rename' must be str or False, got 'True'.".
Proof.
  intros w. split.
  - exact (copy_remote_to_local_rename sftp_ok login "out.txt" "job/out.txt"
             (PyBool false) w eq_refl).
  - exact (copy_remote_to_local_rename sftp_ok login "out.txt" "job/out.txt"
             (PyBool true) w eq_refl).
Defined.
